(** * Path confinement and disk quota of the server filesystem

    A shallow embedding of [server/filesystem.go]: [Filesystem.Path],
    [Filesystem.SafePath], [Filesystem.DirectorySize] and
    [Filesystem.HasSpaceAvailable], together with the parts of Go's
    [strings] and [path/filepath] packages they call (Unix flavour).

    Go strings are byte strings and are modelled by [string]; [int64] values
    are modelled by [Z] with the wrap-around of the addition written out;
    a Go result pair [(v, err)] is a Rocq pair whose second component is an
    [option error] ([None] is [nil]). *)

From Stdlib Require Import ZArith List String Ascii Bool Lia.
From stdpp Require Import gmap strings.
Import ListNotations.
Open Scope string_scope.

(** ** Errors *)

(** The error values that reach the code: the errno of a failed system call
    and the package's own [InvalidPathResolution]. *)
Inductive error : Type :=
  | ENOENT                 (* no such file or directory *)
  | EACCES                 (* permission denied *)
  | ENOTDIR                (* a path component is not a directory *)
  | ELOOP                  (* EvalSymlinks: too many links *)
  | InvalidPathResolution. (* errors.New("invalid path resolution") *)

(** What a library call gives back: a value or an error. *)
Inductive result (A : Type) : Type :=
  | Ok (a : A)
  | Fail (e : error).
Arguments Ok {A} a.
Arguments Fail {A} e.

Module os.
(** [os.IsNotExist(err)]; [nil] is not a not-exist error. *)
Definition IsNotExist (err : option error) : bool :=
  match err with
  | Some ENOENT => true
  | _ => false
  end.
End os.

(** ** Package [strings] *)

Module strings.

(** [strings.HasPrefix(s, prefix)]. *)
Definition HasPrefix (s pre : string) : bool := String.prefix pre s.

(** [strings.Split(s, "/")]: the pieces of [s] between slashes; never
    empty, [Split "" = [""]]. *)
Fixpoint Split (s : string) : list string :=
  match s with
  | EmptyString => [""]
  | String c s' =>
      if Ascii.eqb c "/" then "" :: Split s'
      else match Split s' with
           | [] => [String c ""]
           | h :: t => String c h :: t
           end
  end.

(** [strings.Join(parts, "/")]. *)
Fixpoint Join (parts : list string) : string :=
  match parts with
  | [] => ""
  | [x] => x
  | x :: rest => x ++ "/" ++ Join rest
  end.

End strings.

(** ** Package [path/filepath] (Unix) *)

Module filepath.

(** The element stack of [Clean]: [out] holds the elements written so far,
    last one first. An empty element and [.] are dropped; [..] removes the
    last element when there is one to remove, is kept in front of a
    relative path and is dropped at the root. *)
Fixpoint cleanParts (rooted : bool) (out parts : list string) : list string :=
  match parts with
  | [] => rev out
  | c :: rest =>
      if (c =? "") || (c =? ".") then cleanParts rooted out rest
      else if c =? ".." then
        match out with
        | top :: out' =>
            if top =? ".." then cleanParts rooted (".." :: out) rest
            else cleanParts rooted out' rest
        | [] =>
            if rooted then cleanParts rooted [] rest
            else cleanParts rooted [".."] rest
        end
      else cleanParts rooted (c :: out) rest
  end.

(** [filepath.Clean(path)]. *)
Definition Clean (path : string) : string :=
  if path =? "" then "."
  else
    let rooted := strings.HasPrefix path "/" in
    let body := strings.Join (cleanParts rooted [] (strings.Split path)) in
    if rooted then "/" ++ body
    else if body =? "" then "." else body.

(** [filepath.Join(elem...)]: leading empty elements are skipped, the rest
    is joined with slashes and cleaned; all empty gives [""]. *)
Fixpoint Join (elem : list string) : string :=
  match elem with
  | [] => ""
  | e :: rest =>
      if e =? "" then Join rest else Clean (strings.Join elem)
  end.

Fixpoint hasSlash (s : string) : bool :=
  match s with
  | EmptyString => false
  | String c s' => Ascii.eqb c "/" || hasSlash s'
  end.

(** [path[:i+1]] for [i] the index of the last slash of [path]. *)
Fixpoint upToLastSlash (s : string) : string :=
  match s with
  | EmptyString => ""
  | String c s' => if hasSlash s then String c (upToLastSlash s') else ""
  end.

(** [filepath.Dir(path)]. *)
Definition Dir (path : string) : string := Clean (upToLastSlash path).

End filepath.

(** ** The host the code runs on *)

(** An entry of a directory listing ([os.FileInfo]). *)
Record FileInfo : Type := mkFileInfo {
  Name : string;
  Size : Z;       (* int64 *)
  IsDir : bool
}.

(** The two calls the code makes into the operating system. What they
    return depends on the disk, so they are parameters of the model; the disk
    is taken not to change while a call of the functions below runs. *)
Record Host : Type := mkHost {
  (* filepath.EvalSymlinks *)
  EvalSymlinks : string -> result string;
  (* ioutil.ReadDir: the entries of a directory, sorted by name *)
  ReadDir : string -> result (list FileInfo)
}.

(** ** The data of [server/filesystem.go] *)

(** Modelled from the spec: the server record, whose declaration is not part
    of the sources. Of its fields the code reads the identifier [Uuid], used
    as the last element of the confined root, and the disk quota
    [Build.DiskSpace] in MiB, where zero or less means unlimited; the quota
    is compared with an [int64], so it is one. *)
Record Server : Type := mkServer {
  Uuid : string;
  (* Server.Build.DiskSpace, in MiB; int64 *)
  DiskSpace : Z
}.

Record Filesystem : Type := mkFilesystem {
  Root : string;
  Srv : Server     (* the field [Server] *)
}.

(** [fs.Path()]. *)
Definition Path (fs : Filesystem) : string :=
  filepath.Join [Root fs; Uuid (Srv fs)].

Section SafePath.

Variable host : Host.
Variable fs : Filesystem.

(** [filepath.EvalSymlinks] as the Go pair: the path is [""] with every
    error. *)
Definition evalSymlinks (path : string) : string * option error :=
  match EvalSymlinks host path with
  | Ok t => (t, None)
  | Fail e => ("", Some e)
  end.

(** The loop of [SafePath] over [k := range parts], with [n] the number of
    parts still joined, [n = len(parts) - k]: it gives the value of
    [nonExistentPathResolution] when the loop is left. *)
Fixpoint walkUp (parts : list string) (n : nat) : string :=
  match n with
  | O => ""
  | S m =>
      let try := strings.Join (firstn n parts) in
      if negb (strings.HasPrefix try (Path fs)) then ""
      else
        match evalSymlinks try with
        | (t, None) => t
        | (_, Some _) => walkUp parts m
        end
  end.

(** The two checks after the loop. *)
Definition checkPrefix (r p nonExistentPathResolution : string)
  : string * option error :=
  if negb (nonExistentPathResolution =? "") then
    if negb (strings.HasPrefix nonExistentPathResolution (Path fs))
    then ("", Some InvalidPathResolution)
    else (r, None)
  else if strings.HasPrefix p (Path fs) then (p, None)
  else ("", Some InvalidPathResolution).

(** [fs.SafePath(p)]. *)
Definition SafePath (p : string) : string * option error :=
  let r := filepath.Clean (filepath.Join [Path fs; p]) in
  let '(p', err) := evalSymlinks r in
  match err with
  | Some e =>
      if negb (os.IsNotExist err) then ("", Some e)
      else
        let parts := strings.Split (filepath.Dir r) in
        checkPrefix r p' (walkUp parts (length parts))
  | None => checkPrefix r p' ""
  end.

End SafePath.

(** ** int64 arithmetic *)

Module int64.
Definition min : Z := - 2 ^ 63.
Definition max : Z := 2 ^ 63 - 1.
Definition inRange (z : Z) : Prop := (min <= z <= max)%Z.
(** The value of an integer in two's complement on 64 bits. *)
Definition wrap (z : Z) : Z := ((z + 2 ^ 63) mod 2 ^ 64 - 2 ^ 63)%Z.
(** [a + b] on [int64]. *)
Definition add (a b : Z) : Z := wrap (a + b).
(** [a / b] on [int64], [b] a positive constant: the quotient is truncated
    toward zero. *)
Definition div (a b : Z) : Z := Z.quot a b.
End int64.

Section DirectorySize.

Variable host : Host.
Variable fs : Filesystem.

(** The range loop of [DirectorySize] over the listing, [size] being the
    running total. A file adds its size; a directory adds what the call
    on it returns, whose error is dropped ([s, _ := fs.DirectorySize(p)]).
    The calls on directories are goroutines in the source; this is the
    total when every [size += s] runs undisturbed, which is the only case
    where the total is determined (see [Race] below for the others).
    [call] is [fs.DirectorySize]; it gives [None] when the nesting is
    deeper than the fuel allows. *)
Fixpoint rangeFiles (call : string -> option (Z * option error))
    (cleaned : string) (files : list FileInfo) (size : Z) : option Z :=
  match files with
  | [] => Some size
  | f :: rest =>
      if IsDir f then
        match call (filepath.Join [cleaned; Name f]) with
        | None => None
        | Some (s, _) => rangeFiles call cleaned rest (int64.add size s)
        end
      else rangeFiles call cleaned rest (int64.add size (Size f))
  end.

(** [fs.DirectorySize(dir)] when the additions to [size] run undisturbed,
    one after the other in the order of the listing; [fuel] bounds the depth
    of the recursion. Whether an error is returned, and which, does not
    depend on that order; the total does as soon as the listing holds a
    directory together with other entries, and [Race.DirectorySizeUnder]
    below gives it for the other schedules. *)
Fixpoint DirectorySize (fuel : nat) (dir : string)
  : option (Z * option error) :=
  match fuel with
  | O => None
  | S n =>
      match SafePath host fs dir with
      | (_, Some err) => Some (0%Z, Some err)
      | (cleaned, None) =>
          match ReadDir host cleaned with
          | Fail err => Some (0%Z, Some err)
          | Ok files =>
              match rangeFiles (DirectorySize n) cleaned files 0%Z with
              | None => None
              | Some size => Some (size, None)
              end
          end
      end
  end.

End DirectorySize.

(** ** The server cache *)

Module time.
(** [time.Duration] counts nanoseconds. *)
Definition Minute : Z := 60000000000.
End time.

(** The per-server key/value cache behind [fs.Server.Cache()]. *)
Module cache.

(** Modelled from the spec: an entry of the cache, whose code is not part of
    the sources. It holds the usage in bytes and the absolute time at which
    it expires. *)
Record Item : Type := mkItem {
  Object : Z;        (* the int64 stored under the key *)
  Expiration : Z     (* absolute time, in nanoseconds *)
}.

(** Modelled from the spec: the lookup of the cache, whose code is not part
    of the sources. It returns the value and its presence; an entry past its
    expiry is absent. *)
Definition Get (c : gmap string Item) (k : string) (now : Z) : option Z :=
  match c !! k with
  | Some it => if (now <=? Expiration it)%Z then Some (Object it) else None
  | None => None
  end.

(** Modelled from the spec: the store of the cache ([Set] in the source),
    whose code is not part of the sources. It writes the entry with the
    expiry [now + d], [d] being the time to live. *)
Definition Set_ (c : gmap string Item) (k : string) (x : Z) (d : Z) (now : Z)
  : gmap string Item :=
  <[k := mkItem x (now + d)]> c.

End cache.

(** What a call of [HasSpaceAvailable] does besides answering. *)
Inductive event : Type :=
  | Walk (dir : string)                  (* fs.DirectorySize(dir) was called *)
  | Warn (server : string) (err : error). (* zap.S().Warnw(...) *)

Section HasSpaceAvailable.

Variable host : Host.
Variable fs : Filesystem.

(** The comparison of the last line, [(size / 1024.0 / 1024.0) <= space]:
    both constants convert to [int64], so both divisions are integer
    divisions. *)
Definition fits (size space : Z) : bool :=
  (int64.div (int64.div size 1024) 1024 <=? space)%Z.

(** [fs.HasSpaceAvailable()]. [c] is the cache before the call, [now] the
    time of the lookup and [later] the time of the store that follows a
    walk; the result is the answer, the cache after the call and what the
    call did. The [size] declared inside the [if] is a new variable
    ([size_walk] here); the [size] of the last line is the outer one. *)
Definition HasSpaceAvailable (fuel : nat) (now later : Z)
    (c : gmap string cache.Item)
  : option (bool * gmap string cache.Item * list event) :=
  let space := DiskSpace (Srv fs) in
  if (space <=? 0)%Z then Some (true, c, [])
  else
    let size :=
      match cache.Get c "disk_used" now with
      | Some x => x
      | None => 0%Z
      end in
    if (size =? 0)%Z then
      match DirectorySize host fs fuel "/" with
      | None => None
      | Some (size_walk, Some err) =>
          Some (fits size space, c,
                [Walk "/"; Warn (Uuid (Srv fs)) err])
      | Some (size_walk, None) =>
          Some (fits size space,
                cache.Set_ c "disk_used" size_walk (time.Minute * 5) later,
                [Walk "/"])
      end
    else Some (fits size space, c, []).

End HasSpaceAvailable.

(** ** A disk to run the code on

    A finite disk, for running the code on concrete trees: a table from
    clean absolute paths to what is stored there; the root directory [/] is
    always present. *)

Module Disk.

Inductive Node : Type :=
  | File (size : Z)           (* a regular file of that many bytes *)
  | Dir                       (* a directory *)
  | LockedDir                 (* a directory without any permission bit *)
  | Symlink (target : string).

Definition t : Type := list (string * Node).

Fixpoint find (d : t) (path : string) : option Node :=
  match d with
  | [] => None
  | (p, n) :: rest => if p =? path then Some n else find rest path
  end.

(** [os.Lstat(path)] for a clean absolute path whose parent has already
    been walked through. *)
Definition Lstat (d : t) (path : string) : result Node :=
  if path =? "/" then Ok Dir
  else
    match find d (filepath.Dir path) with
    | Some LockedDir => Fail EACCES
    | _ =>
        match find d path with
        | Some n => Ok n
        | None => Fail ENOENT
        end
    end.

Inductive walkStep : Type :=
  | Done (dest : string)
  | Failed (e : error)
  | Link (dest : string) (rest : list string).

(** One pass of the loop of [walkSymlinks] over the path elements [rest],
    [dest] being the path resolved so far; it stops at the first symbolic
    link, with the elements of its target put in front of the ones left. *)
Fixpoint walkElements (d : t) (dest : string) (rest : list string)
  : walkStep :=
  match rest with
  | [] => Done dest
  | c :: rest' =>
      if (c =? "") || (c =? ".") then walkElements d dest rest'
      else if c =? ".." then
        walkElements d (filepath.Clean (dest ++ "/..")) rest'
      else
        let dest' := filepath.Join [dest; c] in
        match Lstat d dest' with
        | Fail e => Failed e
        | Ok (Symlink link) =>
            if strings.HasPrefix link "/"
            then Link "/" (strings.Split link ++ rest')
            else Link dest (strings.Split link ++ rest')
        | Ok (File _) =>
            match rest' with
            | [] => Done dest'
            | _ :: _ => Failed ENOTDIR
            end
        | Ok _ => walkElements d dest' rest'
        end
  end.

(** [walkSymlinks]: [links] is the number of links that may still be
    followed. *)
Fixpoint walkSymlinks (links : nat) (d : t) (dest : string)
    (rest : list string) : result string :=
  match walkElements d dest rest with
  | Done p => Ok (filepath.Clean p)
  | Failed e => Fail e
  | Link dest' rest' =>
      match links with
      | O => Fail ELOOP
      | S n => walkSymlinks n d dest' rest'
      end
  end.

(** [filepath.EvalSymlinks(path)] on this disk, for an absolute [path];
    at most 255 links are followed. *)
Definition EvalSymlinks (d : t) (path : string) : result string :=
  if strings.HasPrefix path "/"
  then walkSymlinks 255 d "/" (strings.Split path)
  else Fail ENOENT.

Fixpoint lastPart (parts : list string) : string :=
  match parts with
  | [] => ""
  | [x] => x
  | _ :: rest => lastPart rest
  end.

(** [filepath.Base] of a clean path. *)
Definition Base (path : string) : string := lastPart (strings.Split path).

(** [Lstat] of an entry, as [os.FileInfo]. *)
Definition info (path : string) (n : Node) : FileInfo :=
  match n with
  | File size => mkFileInfo (Base path) size false
  | Dir | LockedDir => mkFileInfo (Base path) 4096 true
  | Symlink target =>
      mkFileInfo (Base path) (Z.of_nat (String.length target)) false
  end.

Fixpoint insertByName (f : FileInfo) (l : list FileInfo) : list FileInfo :=
  match l with
  | [] => [f]
  | g :: rest =>
      if String.leb (Name f) (Name g) then f :: l
      else g :: insertByName f rest
  end.

Fixpoint entries (d : t) (dir : string) : list FileInfo :=
  match d with
  | [] => []
  | (p, n) :: rest =>
      if negb (p =? "/") && (filepath.Dir p =? dir)
      then insertByName (info p n) (entries rest dir)
      else entries rest dir
  end.

(** [ioutil.ReadDir(dirname)]: the directory is opened through the links
    on its path and its entries are returned sorted by name. *)
Definition ReadDir (d : t) (dirname : string) : result (list FileInfo) :=
  match EvalSymlinks d dirname with
  | Fail e => Fail e
  | Ok real =>
      match Lstat d real with
      | Fail e => Fail e
      | Ok Dir => Ok (entries d real)
      | Ok LockedDir => Fail EACCES
      | Ok _ => Fail ENOTDIR
      end
  end.

Definition host (d : t) : Host := mkHost (EvalSymlinks d) (ReadDir d).

End Disk.

(** ** The goroutines of [DirectorySize]

    In the source every directory of the listing is handled by a goroutine
    that ends with [size += s] on the variable [size] of the enclosing call,
    while the loop itself goes on with [size += f.Size()] for the files.
    Neither is atomic: [size += x] reads [size] and then writes the sum.
    The steps below are these reads and writes; a schedule says which
    goroutine moves next. *)

Module Race.

(** What the loop finds in the listing: a file of some size, or a
    directory together with the value [s] its goroutine gets from
    [fs.DirectorySize(p)]. *)
Inductive entry : Type :=
  | FileEntry (bytes : Z)
  | DirEntry (s : Z).

Inductive goroutine : Type :=
  | Ready (s : Z)         (* [s] is known, [size] has not been read *)
  | Loaded (s old : Z)    (* [size] has been read as [old] *)
  | Finished.             (* [size] has been written; wg.Done() *)

Record state : Type := mkState {
  size : Z;                  (* the shared variable *)
  todo : list entry;         (* the entries the loop has not handled *)
  pending : option Z;        (* the loop has read [size] for a file *)
  tasks : list goroutine     (* the goroutines, in spawning order *)
}.

(** A step of the loop: spawn the goroutine of a directory, or do one half
    of [size += f.Size()]. *)
Definition stepMain (st : state) : option state :=
  match todo st with
  | [] => None
  | DirEntry s :: rest =>
      Some (mkState (size st) rest None (tasks st ++ [Ready s]))
  | FileEntry bytes :: rest =>
      match pending st with
      | None => Some (mkState (size st) (todo st) (Some (size st)) (tasks st))
      | Some old => Some (mkState (int64.add old bytes) rest None (tasks st))
      end
  end.

(** A step of the [i]-th goroutine: one half of [size += s]. *)
Definition stepTask (i : nat) (st : state) : option state :=
  match tasks st !! i with
  | Some (Ready s) =>
      Some (mkState (size st) (todo st) (pending st)
                    (<[i := Loaded s (size st)]> (tasks st)))
  | Some (Loaded s old) =>
      Some (mkState (int64.add old s) (todo st) (pending st)
                    (<[i := Finished]> (tasks st)))
  | _ => None
  end.

(** Thread [0] is the loop, thread [i + 1] the [i]-th goroutine. *)
Definition step (who : nat) (st : state) : option state :=
  match who with
  | O => stepMain st
  | S i => stepTask i st
  end.

Fixpoint run (schedule : list nat) (st : state) : option state :=
  match schedule with
  | [] => Some st
  | who :: rest =>
      match step who st with
      | Some st' => run rest st'
      | None => None
      end
  end.

Definition isFinished (g : goroutine) : bool :=
  match g with
  | Finished => true
  | _ => false
  end.

(** [wg.Wait()] has returned: the loop is over and every goroutine is
    done; the call returns [size]. *)
Definition returned (st : state) : option Z :=
  match todo st, pending st with
  | [], None => if forallb isFinished (tasks st) then Some (size st) else None
  | _, _ => None
  end.

Definition start (entries : list entry) : state := mkState 0 entries None [].

(** The listing as the loop sees it, [call] being [fs.DirectorySize]. *)
Fixpoint entriesOf (call : string -> option (Z * option error))
    (cleaned : string) (files : list FileInfo) : option (list entry) :=
  match files with
  | [] => Some []
  | f :: rest =>
      match entriesOf call cleaned rest with
      | None => None
      | Some es =>
          if IsDir f then
            match call (filepath.Join [cleaned; Name f]) with
            | None => None
            | Some (s, _) => Some (DirEntry s :: es)
            end
          else Some (FileEntry (Size f) :: es)
      end
  end.

Definition amount (e : entry) : Z :=
  match e with
  | FileEntry bytes => bytes
  | DirEntry s => s
  end.

(** The total when the amounts are added one after the other. *)
Definition sumEntries (entries : list entry) (size : Z) : Z :=
  fold_left (fun acc e => int64.add acc (amount e)) entries size.

(** The schedule in which every [size += x] runs undisturbed as soon as it
    can: [k] goroutines have been spawned before. *)
Fixpoint inOrder (k : nat) (entries : list entry) : list nat :=
  match entries with
  | [] => []
  | FileEntry _ :: rest => O :: O :: inOrder k rest
  | DirEntry _ :: rest => O :: S k :: S k :: inOrder (S k) rest
  end.

(** [fs.DirectorySize(dir)] when the goroutines of this call move as
    [schedule] says (those of the nested calls run undisturbed). *)
Definition DirectorySizeUnder (host : Host) (fs : Filesystem)
    (schedule : list nat) (fuel : nat) (dir : string)
  : option (Z * option error) :=
  match SafePath host fs dir with
  | (_, Some err) => Some (0%Z, Some err)
  | (cleaned, None) =>
      match ReadDir host cleaned with
      | Fail err => Some (0%Z, Some err)
      | Ok files =>
          match entriesOf (DirectorySize host fs fuel) cleaned files with
          | None => None
          | Some es =>
              match run schedule (start es) with
              | None => None
              | Some st =>
                  match returned st with
                  | None => None
                  | Some total => Some (total, None)
                  end
              end
          end
      end
  end.

End Race.

(** ** Vocabulary of the properties *)

Fixpoint isListPrefix (l1 l2 : list string) : bool :=
  match l1, l2 with
  | [], _ => true
  | _ :: _, [] => false
  | x :: l1', y :: l2' => (x =? y) && isListPrefix l1' l2'
  end.

(** [t] is [root] or lies below it: the path elements of [root] are the
    first path elements of [t]. *)
Definition descends (root t : string) : bool :=
  isListPrefix (strings.Split root) (strings.Split t).

(** The bytes of the regular files of the disk [d] that lie below [root]. *)
Fixpoint regularBytes (d : Disk.t) (root : string) : Z :=
  match d with
  | [] => 0%Z
  | (p, Disk.File bytes) :: rest =>
      if descends root p then (bytes + regularBytes rest root)%Z
      else regularBytes rest root
  | _ :: rest => regularBytes rest root
  end.

Section Candidate.

Variable host : Host.
Variable fs : Filesystem.

(** The candidate [r] of [SafePath]: the confined root joined with the
    requested path, cleaned. *)
Definition candidate (p : string) : string :=
  filepath.Clean (filepath.Join [Path fs; p]).

(** The ancestors of the candidate, as the loop of [SafePath] writes them:
    the first [n] parts of the candidate's directory. *)
Definition ancestor (p : string) (n : nat) : string :=
  strings.Join (firstn n (strings.Split (filepath.Dir (candidate p)))).

Definition depth (p : string) : nat :=
  length (strings.Split (filepath.Dir (candidate p))).

(** The requested path does not exist, [ancestor p n] is its deepest
    ancestor that exists, and it resolves to the real path [t], which is
    the confined root or lies below it. *)
Definition newBelowRoot (p : string) (n : nat) (t : string) : Prop :=
  EvalSymlinks host (candidate p) = Fail ENOENT /\
  (1 <= n <= depth p)%nat /\
  (forall m, (n < m <= depth p)%nat ->
             EvalSymlinks host (ancestor p m) = Fail ENOENT) /\
  EvalSymlinks host (ancestor p n) = Ok t /\
  t <> "" /\
  descends (Path fs) t = true.

(** Resolving the directory [dir] or listing it fails with [e]. *)
Definition topLevelFailure (dir : string) (e : error) : Prop :=
  snd (SafePath host fs dir) = Some e \/
  exists cleaned, SafePath host fs dir = (cleaned, None) /\
                  ReadDir host cleaned = Fail e.

End Candidate.

(** ** Disks and servers of the examples *)

Module Examples.

Import Disk.

(** The server [srv-1] under the data root [/data], with a quota of
    one MiB. *)
Definition fs1 : Filesystem := mkFilesystem "/data" (mkServer "srv-1" 1).

(** The same server without a quota. *)
Definition fsUnlimited : Filesystem :=
  mkFilesystem "/data" (mkServer "srv-1" 0).

(** Two servers whose names begin alike. *)
Definition siblings : Disk.t :=
  [ ("/data", Dir);
    ("/data/srv-1", Dir);
    ("/data/srv-10", Dir);
    ("/data/srv-10/x", File 7) ].

(** A link next to the server directory that points into it. *)
Definition linked : Disk.t :=
  [ ("/data", Dir);
    ("/data/srv-1", Dir);
    ("/data/link", Symlink "/data/srv-1") ].

(** Files of 10, 20 and 30 bytes on two levels. *)
Definition nested : Disk.t :=
  [ ("/data", Dir);
    ("/data/srv-1", Dir);
    ("/data/srv-1/a.txt", File 10);
    ("/data/srv-1/sub", Dir);
    ("/data/srv-1/sub/b.txt", File 20);
    ("/data/srv-1/sub/c.txt", File 30) ].

(** One file of five MiB. *)
Definition large : Disk.t :=
  [ ("/data", Dir);
    ("/data/srv-1", Dir);
    ("/data/srv-1/world.dat", File 5242880) ].

(** A directory and, after it in the listing, a file of 10 bytes. *)
Definition mixed : Disk.t :=
  [ ("/data", Dir);
    ("/data/srv-1", Dir);
    ("/data/srv-1/a", Dir);
    ("/data/srv-1/b.txt", File 10) ].

(** [mixed] without its directory. *)
Definition fileOnly : Disk.t :=
  [ ("/data", Dir);
    ("/data/srv-1", Dir);
    ("/data/srv-1/b.txt", File 10) ].

(** A schedule for [mixed]: the goroutine of [a] is spawned and reads
    [size]; the loop reads [size] and writes it for [b.txt]; then the
    goroutine writes. *)
Definition interleaved : list nat := [0; 1; 0; 0; 1]%nat.

(** A server directory with nothing in it. *)
Definition bare : Disk.t :=
  [ ("/data", Dir);
    ("/data/srv-1", Dir) ].

(** The server directory has not been created. *)
Definition missing : Disk.t :=
  [ ("/data", Dir) ].

(** The server directory cannot be listed. *)
Definition locked : Disk.t :=
  [ ("/data", Dir);
    ("/data/srv-1", LockedDir) ].

End Examples.

(** ** Vocabulary of the further properties *)

(** A path element that [Clean] keeps as it is: not empty, not [.] or
    [..], and without a slash. *)
Definition isName (c : string) : bool :=
  negb (c =? "") && negb (c =? ".") && negb (c =? "..")
  && negb (filepath.hasSlash c).

(** The shape of an absolute clean path. *)
Definition absolute (cs : list string) : string := "/" ++ strings.Join cs.

(** The request has [..] among its elements. *)
Definition hasDotDot (p : string) : bool :=
  existsb (String.eqb "..") (strings.Split p).

(** The sizes of the entries of a listing that are not directories, added
    up as integers. *)
Fixpoint plainBytes (files : list FileInfo) : Z :=
  match files with
  | [] => 0%Z
  | f :: rest =>
      if IsDir f then plainBytes rest else (Size f + plainBytes rest)%Z
  end.

(** A directory of the listing can be neither resolved nor listed under
    the path [double], the confined root twice over followed by its
    name. *)
Definition notBelowItself (host : Host) (fs : Filesystem) (f : FileInfo)
  : Prop :=
  let double := Path fs ++ Path fs ++ "/" ++ Name f in
  isName (Name f) = true /\
  (exists e, EvalSymlinks host double = Fail e) /\
  (exists e, ReadDir host double = Fail e).

Module Cases.
Import Disk.

(** A file of 10 bytes and a link to it; the link has the length of its
    target, 5 bytes. *)
Definition withLink : Disk.t :=
  [ ("/data", Dir);
    ("/data/srv-1", Dir);
    ("/data/srv-1/a.txt", File 10);
    ("/data/srv-1/latest", Symlink "a.txt") ].

End Cases.

(** The amounts of the entries, added up as integers. *)
Fixpoint sumAmounts (entries : list Race.entry) : Z :=
  match entries with
  | [] => 0%Z
  | e :: rest => (Race.amount e + sumAmounts rest)%Z
  end.

(** What a goroutine has still to add to [size]. *)
Definition owed (g : Race.goroutine) : Z :=
  match g with
  | Race.Ready s => s
  | Race.Loaded s _ => s
  | Race.Finished => 0%Z
  end.

Fixpoint sumOwed (tasks : list Race.goroutine) : Z :=
  match tasks with
  | [] => 0%Z
  | g :: rest => (owed g + sumOwed rest)%Z
  end.

(** What has not been added to [size] yet. *)
Definition outstanding (st : Race.state) : Z :=
  (sumAmounts (Race.todo st) + sumOwed (Race.tasks st))%Z.

(** A value read from [size] and not written back yet, together with what
    is outstanding, stays within [total]. *)
Definition within (total rest value : Z) : Prop :=
  (0 <= value /\ value + rest <= total)%Z.

Definition readWithin (total rest : Z) (g : Race.goroutine) : Prop :=
  match g with
  | Race.Loaded _ old => within total rest old
  | _ => True
  end.

(** What every schedule keeps: the amounts are not negative, and [size] and
    every value read from it stay within [total] once what is outstanding
    is added. *)
Definition bounded (total : Z) (st : Race.state) : Prop :=
  Forall (fun e => (0 <= Race.amount e)%Z) (Race.todo st) /\
  Forall (fun g => (0 <= owed g)%Z) (Race.tasks st) /\
  within total (outstanding st) (Race.size st) /\
  (forall old, Race.pending st = Some old ->
               within total (outstanding st) old) /\
  Forall (readWithin total (outstanding st)) (Race.tasks st).

(** ** Package [config]

    The configuration singleton of the daemon: the functions of the
    configuration file of the sources that read and write the package
    variables, [Expand], [FromFile], [WriteToDisk], [EnableLogRotation],
    [ConfigureTimezone], [UseOpenat2] and [GetStatesPath]. The package
    variables are threaded as a state; the mutexes and atomics only order
    the calls, which are taken one at a time. *)

Module config.

Module Token.
Record t : Type := mk {
  ID : string;
  Token : string
}.
End Token.

(** The fields of [SystemConfiguration] that the functions below read. *)
Record SystemConfiguration : Type := mkSystemConfiguration {
  RootDirectory : string;
  LogDirectory : string;
  Timezone : string;
  EnableLogRotate : bool;
  OpenatMode : string
}.

(** The fields of [Configuration] that the functions below read or
    write. *)
Record Configuration : Type := mkConfiguration {
  Token : Token.t;
  path : string;
  Debug : bool;
  AuthenticationTokenId : string;
  AuthenticationToken : string;
  System : SystemConfiguration
}.

Definition withToken (c : Configuration) (t : Token.t) : Configuration :=
  mkConfiguration t (path c) (Debug c) (AuthenticationTokenId c)
                  (AuthenticationToken c) (System c).

Definition withPath (c : Configuration) (p : string) : Configuration :=
  mkConfiguration (Token c) p (Debug c) (AuthenticationTokenId c)
                  (AuthenticationToken c) (System c).

Definition withDebug (c : Configuration) (d : bool) : Configuration :=
  mkConfiguration (Token c) (path c) d (AuthenticationTokenId c)
                  (AuthenticationToken c) (System c).

Definition withTimezone (c : Configuration) (tz : string) : Configuration :=
  mkConfiguration (Token c) (path c) (Debug c) (AuthenticationTokenId c)
    (AuthenticationToken c)
    (mkSystemConfiguration (RootDirectory (System c)) (LogDirectory (System c))
       tz (EnableLogRotate (System c)) (OpenatMode (System c))).

(** [*jwt.HMACSHA]: the algorithm is known by the key it was made with. *)
Inductive HMACSHA : Type :=
  | NewHS256 (key : string).

(** The errors of the package. *)
Inductive failure : Type :=
  | NoPathDefined         (* "cannot write configuration, no path defined in struct" *)
  | OsError (e : error)   (* an error of package os *)
  | YamlError             (* an error of yaml.Marshal or yaml.Unmarshal *)
  | DefaultsError         (* an error of defaults.Set *)
  | TimezoneFile (e : error)     (* "config: failed to open timezone file" *)
  | InvalidTimezone (tz : string) (* "the supplied timezone ... is invalid" *)
  | LogrotateWrite.       (* "config: failed to write logrotate to disk" *)

(** What the package asks of the operating system and of the libraries. *)
Record Platform : Type := mkPlatform {
  ExpandEnv : string -> string;                 (* os.ExpandEnv *)
  Getenv : string -> string;                    (* os.Getenv *)
  ReadFile : string -> result string;           (* os.ReadFile *)
  WriteFile : string -> string -> option error; (* os.WriteFile(name, data, 0o600) *)
  Defaults : option Configuration;              (* defaults.Set on a new struct *)
  Marshal : Configuration -> option string;     (* yaml.Marshal *)
  Unmarshal : string -> Configuration -> option Configuration; (* yaml.Unmarshal *)
  Openat2 : option error;                       (* unix.Openat2(AT_FDCWD, "/", ...) *)
  Stat : string -> result bool;                 (* os.Stat, with IsDir() of the result *)
  Create : string -> option error;              (* os.Create *)
  Execute : string -> option error;             (* writing the executed template *)
  Timedatectl : option string;                  (* the output of timedatectl *)
  LoadLocation : string -> bool                 (* time.LoadLocation returns no error *)
}.

(** The package variables. *)
Record Globals : Type := mkGlobals {
  _config : option Configuration;   (* [None] is the nil pointer *)
  _jwtAlgo : option HMACSHA;
  _debugViaFlag : bool;
  openat2 : bool;
  openat2Set : bool
}.

(** The package variables when the program starts. *)
Definition initial : Globals := mkGlobals None None false false false.

(** What a function returns that gives a struct or, with the nil pointer,
    an error. *)
Inductive returned (A : Type) : Type :=
  | Value (a : A)
  | Error (err : failure).
Arguments Value {A} a.
Arguments Error {A} err.

(** [NewAtPath(path)]. *)
Definition NewAtPath (pf : Platform) (p : string) : returned Configuration :=
  match Defaults pf with
  | None => Error DefaultsError
  | Some c => Value (withPath c p)
  end.

(** [Set(c)]. The structs are held by value: [c] is taken to be another
    struct than the one installed, as it is in [FromFile]; it is installed
    with its token filled in. *)
Definition Set_ (c : Configuration) (g : Globals) : Globals :=
  let token := Token.Token (Token c) in
  let c :=
    if token =? ""
    then withToken c (Token.mk (Token.ID (Token c)) (AuthenticationToken c))
    else c in
  let token := Token.Token (Token c) in
  let algo :=
    match _config g with
    | None => Some (NewHS256 token)
    | Some old =>
        if negb (Token.Token (Token old) =? token)
        then Some (NewHS256 token)
        else _jwtAlgo g
    end in
  mkGlobals (Some c) algo (_debugViaFlag g) (openat2 g) (openat2Set g).

(** [SetDebugViaFlag(d)]; [None] is the panic of writing through the nil
    pointer. *)
Definition SetDebugViaFlag (d : bool) (g : Globals) : option Globals :=
  match _config g with
  | None => None
  | Some c =>
      Some (mkGlobals (Some (withDebug c d)) (_jwtAlgo g) d
                      (openat2 g) (openat2Set g))
  end.

(** [Get()]: a copy of the installed struct; [None] is the panic of reading
    through the nil pointer. *)
Definition Get (g : Globals) : option Configuration := _config g.

(** [GetJwtAlgorithm()]. *)
Definition GetJwtAlgorithm (g : Globals) : option HMACSHA := _jwtAlgo g.

(** [WriteToDisk(c)]: the error and the writes to the disk, each with the
    name of the file and its content. *)
Definition WriteToDisk (pf : Platform) (c : Configuration) (g : Globals)
  : option failure * list (string * string) :=
  let ccopy := c in
  let ccopy := if _debugViaFlag g then withDebug ccopy false else ccopy in
  if path c =? "" then (Some NoPathDefined, [])
  else
    match Marshal pf ccopy with
    | None => (Some YamlError, [])
    | Some b =>
        match WriteFile pf (path c) b with
        | Some err => (Some (OsError err), [(path c, b)])
        | None => (None, [(path c, b)])
        end
    end.

(** [s[n:]]. *)
Fixpoint sliceFrom (n : nat) (s : string) : string :=
  match n, s with
  | O, _ => s
  | S m, String _ s' => sliceFrom m s'
  | S _, EmptyString => ""
  end.

(** [bytes.TrimRight(s, cutset)] for a cutset of one ASCII byte [c]: the
    bytes [c] at the end of [s] are removed. *)
Fixpoint trimRightByte (s : string) (c : ascii) : string :=
  match s with
  | EmptyString => ""
  | String x s' =>
      match trimRightByte s' c with
      | EmptyString => if Ascii.eqb x c then "" else String x ""
      | t => String x t
      end
  end.

Definition filePrefix : string := "file://".

(** [Expand(v)]. *)
Definition Expand (pf : Platform) (v : string) : string * option failure :=
  let v := ExpandEnv pf v in
  if strings.HasPrefix v filePrefix then
    let p := sliceFrom (String.length filePrefix) v in
    match ReadFile pf p with
    | Fail _ => ("", None)
    | Ok b => (trimRightByte (trimRightByte b "013") "010", None)
    end
  else (v, None).

(** [FromFile(path)]: the error and the package variables afterwards. *)
Definition FromFile (pf : Platform) (p : string) (g : Globals)
  : option failure * Globals :=
  match ReadFile pf p with
  | Fail err => (Some (OsError err), g)
  | Ok b =>
      match NewAtPath pf p with
      | Error err => (Some err, g)
      | Value c =>
          match Unmarshal pf b c with
          | None => (Some YamlError, g)
          | Some c =>
              let c := withToken c (Token.mk (Getenv pf "WINGS_TOKEN_ID")
                                             (Getenv pf "WINGS_TOKEN")) in
              let c :=
                if Token.ID (Token c) =? ""
                then withToken c (Token.mk (AuthenticationTokenId c)
                                           (Token.Token (Token c)))
                else c in
              let c :=
                if Token.Token (Token c) =? ""
                then withToken c (Token.mk (Token.ID (Token c))
                                           (AuthenticationToken c))
                else c in
              match Expand pf (Token.ID (Token c)) with
              | (_, Some err) => (Some err, g)
              | (id, None) =>
                  let c := withToken c (Token.mk id (Token.Token (Token c))) in
                  match Expand pf (Token.Token (Token c)) with
                  | (_, Some err) => (Some err, g)
                  | (token, None) =>
                      let c := withToken c (Token.mk (Token.ID (Token c)) token) in
                      (None, Set_ c g)
                  end
              end
          end
      end
  end.

(** The text of the logrotate file after [{{.LogDirectory}}]. *)
Definition logrotateRules : string :=
  "/wings.log {
    size 10M
    compress
    delaycompress
    dateext
    maxage 7
    missingok
    notifempty
    postrotate
        /usr/bin/systemctl kill -s HUP wings.service >/dev/null 2>&1 || true
    endscript
}".

(** What [EnableLogRotation] does to the disk. *)
Inductive change : Type :=
  | Created (name : string)
  | Written (name content : string).

(** [EnableLogRotation()]: the error and the changes to the disk; [None] is
    the panic of reading through the nil pointer. *)
Definition EnableLogRotation (pf : Platform) (g : Globals)
  : option (option failure * list change) :=
  match _config g with
  | None => None
  | Some c =>
      if negb (EnableLogRotate (System c)) then Some (None, [])
      else
        match Stat pf "/etc/logrotate.d" with
        | Fail err =>
            if negb (os.IsNotExist (Some err))
            then Some (Some (OsError err), [])
            else Some (None, [])
        | Ok isDir =>
            if negb isDir then Some (None, [])
            else
              match Stat pf "/etc/logrotate.d/wings" with
              | Ok _ => Some (None, [])
              | Fail err =>
                  if negb (os.IsNotExist (Some err))
                  then Some (Some (OsError err), [])
                  else
                    match Create pf "/etc/logrotate.d/wings" with
                    | Some err => Some (Some (OsError err), [])
                    | None =>
                        let content :=
                          LogDirectory (System c) ++ logrotateRules in
                        match Execute pf content with
                        | Some _ =>
                            Some (Some LogrotateWrite,
                                  [Created "/etc/logrotate.d/wings"])
                        | None =>
                            Some (None,
                                  [Created "/etc/logrotate.d/wings";
                                   Written "/etc/logrotate.d/wings" content])
                        end
                    end
              end
        end
  end.

(** A byte of the class [[\w/]]: a digit, a letter, [_] or [/]. *)
Definition isWordByte (a : ascii) : bool :=
  let n := nat_of_ascii a in
  (Nat.leb 48 n && Nat.leb n 57) || (Nat.leb 65 n && Nat.leb n 90)
  || (Nat.leb 97 n && Nat.leb n 122) || Nat.eqb n 95 || Nat.eqb n 47.

(** The longest run of bytes of the class at the start of [s]. *)
Fixpoint takeWord (s : string) : string :=
  match s with
  | EmptyString => ""
  | String a rest => if isWordByte a then String a (takeWord rest) else ""
  end.

(** [regexp.MustCompile(`Time zone: ([\w/]+)`).FindSubmatch(out)]: the
    group of the leftmost match, if there is a match. *)
Fixpoint FindSubmatch (out : string) : option string :=
  match out with
  | EmptyString => None
  | String _ rest =>
      if strings.HasPrefix out "Time zone: " then
        let word := takeWord (sliceFrom 11 out) in
        if word =? "" then FindSubmatch rest else Some word
      else FindSubmatch rest
  end.

(** A byte that the class [(?i)[^a-z_/]] does not match: a letter, [_]
    or [/]. *)
Definition isZoneByte (a : ascii) : bool :=
  let n := nat_of_ascii a in
  (Nat.leb 65 n && Nat.leb n 90) || (Nat.leb 97 n && Nat.leb n 122)
  || Nat.eqb n 95 || Nat.eqb n 47.

(** [regexp.MustCompile(`(?i)[^a-z_/]+`).ReplaceAllString(s, "")]: what
    the class matches is removed. With the case folding of [(?i)] the class
    [a-z] also holds U+017F and U+212A, whose encodings (C5 BF and
    E2 84 AA) stay with the letters. *)
Fixpoint sanitize (s : string) : string :=
  match s with
  | EmptyString => ""
  | String a rest =>
      if isZoneByte a then String a (sanitize rest)
      else
        match rest with
        | String b rest' =>
            if Nat.eqb (nat_of_ascii a) 197 && Nat.eqb (nat_of_ascii b) 191
            then String a (String b (sanitize rest'))
            else
              match rest' with
              | String c rest'' =>
                  if Nat.eqb (nat_of_ascii a) 226
                     && Nat.eqb (nat_of_ascii b) 132
                     && Nat.eqb (nat_of_ascii c) 170
                  then String a (String b (String c (sanitize rest'')))
                  else sanitize rest
              | EmptyString => sanitize rest
              end
        | EmptyString => ""
        end
  end.

(** What [ConfigureTimezone] logs. *)
Inductive warning : Type :=
  | TimedatectlFailed     (* failed to execute "timedatectl" ... *)
  | TimezoneNotParsed.    (* failed to parse timezone from "timedatectl" output ... *)

(** The package variables with [c] in the place of the installed
    struct. *)
Definition store (g : Globals) (c : Configuration) : Globals :=
  mkGlobals (Some c) (_jwtAlgo g) (_debugViaFlag g) (openat2 g) (openat2Set g).

(** The end of [ConfigureTimezone]: the time zone is cleaned and
    checked. *)
Definition checkTimezone (pf : Platform) (g : Globals) (c : Configuration)
    (log : list warning)
  : option failure * Globals * list warning :=
  let c := withTimezone c (sanitize (Timezone (System c))) in
  if LoadLocation pf (Timezone (System c))
  then (None, store g c, log)
  else (Some (InvalidTimezone (Timezone (System c))), store g c, log).

(** [ConfigureTimezone()]: the error, the package variables afterwards
    and the warnings; [None] is the panic of reading through the nil
    pointer. *)
Definition ConfigureTimezone (pf : Platform) (g : Globals)
  : option (option failure * Globals * list warning) :=
  match _config g with
  | None => None
  | Some c =>
      let tz := Getenv pf "TZ" in
      let c :=
        if (Timezone (System c) =? "") && negb (tz =? "")
        then withTimezone c tz else c in
      if Timezone (System c) =? "" then
        match ReadFile pf "/etc/timezone" with
        | Fail err =>
            if negb (os.IsNotExist (Some err))
            then Some (Some (TimezoneFile err), store g c, [])
            else
              let c := withTimezone c "UTC" in
              match Timedatectl pf with
              | None => Some (None, store g c, [TimedatectlFailed])
              | Some out =>
                  match FindSubmatch out with
                  | None => Some (None, store g c, [TimezoneNotParsed])
                  | Some word =>
                      if word =? ""
                      then Some (None, store g c, [TimezoneNotParsed])
                      else Some (checkTimezone pf g (withTimezone c word) [])
                  end
              end
        | Ok b => Some (checkTimezone pf g (withTimezone c b) [])
        end
      else Some (checkTimezone pf g c [])
  end.

(** [sc.GetStatesPath()]; [path.Join] is [filepath.Join] on Unix. *)
Definition GetStatesPath (sc : SystemConfiguration) : string :=
  filepath.Join [RootDirectory sc; "/states.json"].

(** What a call of [UseOpenat2] did besides answering. *)
Inductive step : Type :=
  | Probed          (* unix.Openat2 was called *)
  | Warned.         (* the fall back to openat was logged *)

(** [UseOpenat2()]: the answer, the package variables afterwards and what
    the call did; [None] is the panic of [Get] on the nil pointer. *)
Definition UseOpenat2 (pf : Platform) (g : Globals)
  : option (bool * Globals * list step) :=
  if openat2Set g then Some (openat2 g, g, [])
  else
    match Get g with
    | None => None
    | Some c =>
        let store (b : bool) : Globals :=
          mkGlobals (_config g) (_jwtAlgo g) (_debugViaFlag g) b true in
        let openatMode := OpenatMode (System c) in
        if openatMode =? "openat2" then Some (true, store true, [])
        else if openatMode =? "openat" then Some (false, store false, [])
        else
          match Openat2 pf with
          | Some _ => Some (false, store false, [Probed; Warned])
          | None => Some (true, store true, [Probed])
          end
    end.

End config.

(** The last byte of [s] is [c]. *)
Fixpoint endsWith (s : string) (c : ascii) : bool :=
  match s with
  | EmptyString => false
  | String x EmptyString => Ascii.eqb x c
  | String _ s' => endsWith s' c
  end.

(** Every byte of [s] passes the test [ok]. *)
Fixpoint allBytes (ok : ascii -> bool) (s : string) : bool :=
  match s with
  | EmptyString => true
  | String a rest => ok a && allBytes ok rest
  end.

(** A letter, [_], [/] or a byte that is not ASCII. *)
Definition zoneOrHigh (a : ascii) : bool :=
  config.isZoneByte a || Nat.leb 128 (nat_of_ascii a).

Module Setup.

(** A configuration file that sets the token to a file reference. *)
Definition fromDefaults : config.Configuration :=
  config.mkConfiguration (config.Token.mk "" "") "" false "" ""
    (config.mkSystemConfiguration "/var/lib/pelican" "/var/log/pelican"
       "" true "auto").

Definition parsed : config.Configuration :=
  config.mkConfiguration (config.Token.mk "" "") "/etc/pelican/config.yml"
    false "node-1" "file:///run/credentials/token"
    (config.mkSystemConfiguration "/var/lib/pelican" "/var/log/pelican"
       "" true "auto").

(** A platform without environment variables, on which the configuration
    file parses to [parsed] and [/run/secret] holds a token ended by a
    carriage return and a line feed. *)
Definition platform : config.Platform :=
  config.mkPlatform
    (fun v => v)
    (fun _ => "")
    (fun name =>
       if name =? "/etc/pelican/config.yml" then Ok "token: ..."
       else if name =? "/run/secret" then Ok ("s3cret" ++ String "013" (String "010" ""))
       else Fail ENOENT)
    (fun _ _ => None)
    (Some fromDefaults)
    (fun c => Some (if config.Debug c then "debug: true" else "debug: false"))
    (fun _ c => Some (config.mkConfiguration
                        (config.Token c) (config.path c) false
                        "node-1" "file:///run/credentials/token"
                        (config.System c)))
    None
    (fun name => if name =? "/etc/logrotate.d" then Ok true else Fail ENOENT)
    (fun _ => None)
    (fun _ => None)
    (Some "               Time zone: Etc/GMT+5 (-05, -0500)")
    (fun tz => (tz =? "UTC") || (tz =? "Etc/GMT")).

(** The same platform with the token in the environment. *)
Definition withEnv : config.Platform :=
  config.mkPlatform
    (config.ExpandEnv platform)
    (fun name => if name =? "WINGS_TOKEN" then "t0ken" else "")
    (config.ReadFile platform)
    (config.WriteFile platform)
    (config.Defaults platform)
    (config.Marshal platform)
    (config.Unmarshal platform)
    (config.Openat2 platform)
    (config.Stat platform)
    (config.Create platform)
    (config.Execute platform)
    (config.Timedatectl platform)
    (config.LoadLocation platform).

(** The configuration as [Set] installs it, and the package variables
    after that. *)
Definition stored : config.Configuration :=
  config.withToken parsed
    (config.Token.mk "" "file:///run/credentials/token").

Definition installed : config.Globals :=
  config.Set_ parsed config.initial.

(** The package variables after [SetDebugViaFlag(true)]. *)
Definition debugging : config.Globals :=
  config.mkGlobals (Some (config.withDebug stored true))
    (Some (config.NewHS256 "file:///run/credentials/token"))
    true false false.

End Setup.

(** The token that [FromFile] hands to [Set], the file having parsed to
    [c]: the environment comes before the file, and the value is
    expanded. *)
Definition chosenToken (pf : config.Platform) (c : config.Configuration)
  : string :=
  fst (config.Expand pf
         (if config.Getenv pf "WINGS_TOKEN" =? ""
          then config.AuthenticationToken c
          else config.Getenv pf "WINGS_TOKEN")).

Module Links.
Import Disk.

(** A link in the server directory that points out of it. *)
Definition linkOut : Disk.t :=
  [ ("/etc", Dir);
    ("/etc/passwd", File 1200);
    ("/data", Dir);
    ("/data/srv-1", Dir);
    ("/data/srv-1/etc", Symlink "/etc") ].

(** A link in the server directory that points to the directory of
    another server, whose name begins with the name of this one. *)
Definition linkSibling : Disk.t :=
  [ ("/data", Dir);
    ("/data/srv-1", Dir);
    ("/data/srv-10", Dir);
    ("/data/srv-1/peek", Symlink "/data/srv-10") ].

End Links.

(** * Properties *)

(** ** Strings *)

Lemma HasPrefix_nil (s : string) : strings.HasPrefix s "" = true.
Proof. destruct s; reflexivity. Qed.

Lemma HasPrefix_refl (s : string) : strings.HasPrefix s s = true.
Proof.
  unfold strings.HasPrefix. induction s as [|c s IH]; simpl; [reflexivity|].
  destruct (ascii_dec c c); [exact IH | congruence].
Qed.

Lemma HasPrefix_append (s u : string) : strings.HasPrefix (s ++ u) s = true.
Proof.
  unfold strings.HasPrefix. induction s as [|c s IH].
  - destruct u; reflexivity.
  - change (String c s ++ u) with (String c (s ++ u)). simpl.
    destruct (ascii_dec c c); [exact IH | congruence].
Qed.

Lemma HasPrefix_trans (a b c : string) :
  strings.HasPrefix b a = true -> strings.HasPrefix c b = true ->
  strings.HasPrefix c a = true.
Proof.
  unfold strings.HasPrefix. revert b c.
  induction a as [|x a IH]; intros b c Hab Hbc; simpl.
  - destruct c; reflexivity.
  - destruct b as [|y b]; simpl in Hab; [discriminate|].
    destruct (ascii_dec x y) as [->|]; [|discriminate].
    destruct c as [|z c]; simpl in Hbc; [discriminate|].
    destruct (ascii_dec y z) as [->|]; [|discriminate].
    simpl. destruct (ascii_dec z z); [|congruence].
    exact (IH b c Hab Hbc).
Qed.

Lemma HasPrefix_cons (x : ascii) (s pre : string) :
  strings.HasPrefix (String x s) (String x pre) = strings.HasPrefix s pre.
Proof.
  unfold strings.HasPrefix. simpl. destruct (ascii_dec x x); congruence.
Qed.

Lemma HasPrefix_app_both (a s pre : string) :
  strings.HasPrefix (a ++ s) (a ++ pre) = strings.HasPrefix s pre.
Proof.
  induction a as [|x a IH]; [reflexivity|].
  change (String x a ++ s) with (String x (a ++ s)).
  change (String x a ++ pre) with (String x (a ++ pre)).
  rewrite HasPrefix_cons. exact IH.
Qed.

(** Joining more parts only extends the string. *)
Lemma Join_app_prefix (l l' : list string) :
  strings.HasPrefix (strings.Join (l ++ l')) (strings.Join l) = true.
Proof.
  induction l as [|x l IH]; [apply HasPrefix_nil|].
  destruct l as [|y l].
  - simpl. destruct l' as [|z l']; [apply HasPrefix_refl | apply HasPrefix_append].
  - change (strings.Join (x :: y :: l)) with (x ++ "/" ++ strings.Join (y :: l)).
    change (strings.Join ((x :: y :: l) ++ l'))
      with (x ++ "/" ++ strings.Join ((y :: l) ++ l')).
    rewrite !HasPrefix_app_both. exact IH.
Qed.

Lemma Join_firstn_prefix (parts : list string) (n m : nat) :
  (n <= m)%nat ->
  strings.HasPrefix (strings.Join (firstn m parts))
                    (strings.Join (firstn n parts)) = true.
Proof.
  intros Hnm.
  replace (firstn n parts) with (firstn n (firstn m parts)).
  - rewrite <- (firstn_skipn n (firstn m parts)) at 1. apply Join_app_prefix.
  - rewrite firstn_firstn. f_equal. lia.
Qed.

Lemma Join_cons_char (c : ascii) (h : string) (l : list string) :
  strings.Join (String c h :: l) = String c (strings.Join (h :: l)).
Proof. destruct l; reflexivity. Qed.

Lemma Split_not_nil (s : string) : strings.Split s <> [].
Proof.
  induction s as [|c s IH]; simpl; [discriminate|].
  destruct (Ascii.eqb c "/"); [discriminate|].
  destruct (strings.Split s); discriminate.
Qed.

(** Splitting at the slashes and joining again gives the string back. *)
Lemma Join_Split (s : string) : strings.Join (strings.Split s) = s.
Proof.
  induction s as [|c s IH]; [reflexivity|].
  simpl. destruct (Ascii.eqb_spec c "/") as [->|Hc].
  - pose proof (Split_not_nil s) as Hne.
    destruct (strings.Split s) as [|h l] eqn:E; [congruence|].
    change (strings.Join ("" :: h :: l)) with ("" ++ "/" ++ strings.Join (h :: l)).
    rewrite IH. reflexivity.
  - pose proof (Split_not_nil s) as Hne.
    destruct (strings.Split s) as [|h l] eqn:E; [congruence|].
    rewrite Join_cons_char, IH. reflexivity.
Qed.

Lemma isListPrefix_app (l1 l2 : list string) :
  isListPrefix l1 l2 = true -> exists rest, l2 = (l1 ++ rest)%list.
Proof.
  revert l2. induction l1 as [|x l1 IH]; intros l2 H.
  - exists l2. reflexivity.
  - destruct l2 as [|y l2]; simpl in H; [discriminate|].
    apply andb_prop in H as [Hxy Hrest].
    apply String.eqb_eq in Hxy as ->.
    destruct (IH l2 Hrest) as [rest ->]. exists rest. reflexivity.
Qed.

(** A path below the root, element by element, also begins with the root as
    a string; the converse fails ([/data/srv-10] and [/data/srv-1]). *)
Lemma descends_HasPrefix (root t : string) :
  descends root t = true -> strings.HasPrefix t root = true.
Proof.
  unfold descends. intros H.
  destruct (isListPrefix_app _ _ H) as [rest Hrest].
  rewrite <- (Join_Split t), <- (Join_Split root) at 1.
  rewrite Hrest, (Join_Split root).
  rewrite <- (Join_Split root) at 2. apply Join_app_prefix.
Qed.

(** The model of [filepath] on rows of the table-driven tests of Go's own
    package. *)
Example Clean_rows :
  map filepath.Clean
      [""; "abc//def//ghi"; "/./abc/def"; "abc/def/../../.."; "/abc/def/../../..";
       "abc/def/../../../ghi/jkl/../../../mno"; "/../abc"; "abc/../../././../def"]
  = ["."; "abc/def/ghi"; "/abc/def"; ".."; "/"; "../../mno"; "/abc"; "../../def"].
Proof. reflexivity. Qed.

Example Join_rows :
  map filepath.Join
      [[]; [""; ""]; ["a"; ""]; [""; "b"]; ["/"; "a"]; ["/a"; "/b"]; ["a/"; "b"]]
  = [""; ""; "a"; "b"; "/a"; "/a/b"; "a/b"].
Proof. reflexivity. Qed.

Example Dir_rows :
  map filepath.Dir [""; "/."; "/foo"; "x/"; "abc"; "abc/def"; "a/b/c.x"]
  = ["."; "/"; "/"; "x"; "."; "abc"; "a/b"].
Proof. reflexivity. Qed.

Example Split_rows :
  map strings.Split [""; "/"; "/data/srv-1"; "a//b"]
  = [[""]; [""; ""]; [""; "data"; "srv-1"]; ["a"; ""; "b"]].
Proof. reflexivity. Qed.

(** ** [SafePath] *)

Section SafePathFacts.

Variable host : Host.
Variable fs : Filesystem.

(** [SafePath] in terms of the candidate. *)
Lemma SafePath_existing (p t : string) :
  EvalSymlinks host (candidate fs p) = Ok t ->
  SafePath host fs p = checkPrefix fs (candidate fs p) t "".
Proof.
  intros H. unfold SafePath, evalSymlinks. fold (candidate fs p).
  rewrite H. reflexivity.
Qed.

Lemma SafePath_not_exist (p : string) :
  EvalSymlinks host (candidate fs p) = Fail ENOENT ->
  SafePath host fs p =
    checkPrefix fs (candidate fs p) ""
      (walkUp host fs (strings.Split (filepath.Dir (candidate fs p)))
              (depth fs p)).
Proof.
  intros H. unfold SafePath, evalSymlinks. fold (candidate fs p).
  rewrite H. reflexivity.
Qed.

(** An error of the resolution other than "does not exist" is passed on. *)
Lemma SafePath_io_error (p : string) (e : error) :
  EvalSymlinks host (candidate fs p) = Fail e -> e <> ENOENT ->
  SafePath host fs p = ("", Some e).
Proof.
  intros H He. unfold SafePath, evalSymlinks. fold (candidate fs p).
  rewrite H. destruct e; try reflexivity. congruence.
Qed.

(** An existing target that does not begin with the root string is
    refused. *)
Lemma SafePath_rejects_other_prefix (p t : string) :
  EvalSymlinks host (candidate fs p) = Ok t ->
  strings.HasPrefix t (Path fs) = false ->
  SafePath host fs p = ("", Some InvalidPathResolution).
Proof.
  intros H Hpre. rewrite (SafePath_existing _ _ H).
  unfold checkPrefix. simpl. rewrite Hpre. reflexivity.
Qed.

(** The loop stops at the deepest ancestor that resolves, provided the
    ancestors down to it begin with the root string. *)
Lemma walkUp_deepest (parts : list string) (n : nat) (t : string) :
  (1 <= n)%nat ->
  strings.HasPrefix (strings.Join (firstn n parts)) (Path fs) = true ->
  EvalSymlinks host (strings.Join (firstn n parts)) = Ok t ->
  forall m, (n <= m)%nat ->
    (forall k, (n < k <= m)%nat ->
       EvalSymlinks host (strings.Join (firstn k parts)) = Fail ENOENT) ->
    walkUp host fs parts m = t.
Proof.
  intros Hn Hpre Hres m. induction m as [|m IH]; intros Hnm Hdeeper; [lia|].
  cbn [walkUp].
  assert (Hm : strings.HasPrefix (strings.Join (firstn (S m) parts)) (Path fs) = true).
  { eapply HasPrefix_trans; [exact Hpre|]. apply Join_firstn_prefix. lia. }
  rewrite Hm. cbn [negb]. unfold evalSymlinks.
  destruct (Nat.eq_dec n (S m)) as [<-|Hne].
  - rewrite Hres. reflexivity.
  - rewrite (Hdeeper (S m)) by lia. apply IH; [lia|].
    intros k Hk. apply Hdeeper. lia.
Qed.

End SafePathFacts.

(** C3, as amended. For every requested path whose target does not exist
    and whose deepest existing ancestor resolves, through the links, to a
    real path that is the confined root or lies below it, [SafePath]
    succeeds and returns the cleaned candidate, not the resolved ancestor,
    provided that ancestor as written (before the links are resolved) begins
    with the confined root. *)
Theorem SafePath_new_path_returns_candidate
    (host : Host) (fs : Filesystem) (p : string) (n : nat) (t : string) :
  newBelowRoot host fs p n t ->
  strings.HasPrefix (ancestor fs p n) (Path fs) = true ->
  SafePath host fs p = (candidate fs p, None).
Proof.
  intros (Hnew & Hn & Hdeeper & Hres & Hreal & Hin) Hlex.
  rewrite (SafePath_not_exist _ _ _ Hnew).
  rewrite (walkUp_deepest host fs _ n t); try assumption; try lia.
  unfold checkPrefix.
  apply String.eqb_neq in Hreal. rewrite Hreal. cbn [negb].
  rewrite (descends_HasPrefix _ _ Hin). reflexivity.
Qed.

Lemma SafePath_new_path_returns_candidate_witness :
  SafePath (Disk.host Examples.nested) Examples.fs1 "sub/new/deeper.txt"
  = ("/data/srv-1/sub/new/deeper.txt", None).
Proof.
  apply (SafePath_new_path_returns_candidate
           (Disk.host Examples.nested) Examples.fs1 "sub/new/deeper.txt"
           4 "/data/srv-1/sub").
  - repeat split.
    + lia.
    + vm_compute. lia.
    + intros m Hm. assert (m = 5)%nat as -> by (vm_compute in Hm; lia).
      vm_compute. reflexivity.
    + discriminate.
  - vm_compute. reflexivity.
Defined.

(** C3, as the claim states it, fails: [/data/link] is a link to the
    confined root [/data/srv-1], so the deepest existing ancestor of
    [/data/link/new.txt] resolves to the root itself, and yet the request
    [../link/new.txt] is refused. *)
Lemma SafePath_new_path_counterexample :
  ~ (forall n t,
       newBelowRoot (Disk.host Examples.linked) Examples.fs1
                    "../link/new.txt" n t ->
       SafePath (Disk.host Examples.linked) Examples.fs1 "../link/new.txt"
       = (candidate Examples.fs1 "../link/new.txt", None)).
Proof.
  intros H. specialize (H 3%nat "/data/srv-1").
  assert (Hpre : newBelowRoot (Disk.host Examples.linked) Examples.fs1
                   "../link/new.txt" 3 "/data/srv-1").
  { repeat split.
    - lia.
    - vm_compute. lia.
    - intros m Hm. vm_compute in Hm. lia.
    - discriminate. }
  specialize (H Hpre). vm_compute in H. discriminate.
Qed.

(** C1. The confined root is [/data/srv-1]; the request [../srv-10/x]
    resolves to the existing file [/data/srv-10/x] of another server, which
    is not below the root, and [SafePath] returns it without an error. *)
Theorem SafePath_sibling_not_rejected :
  Path Examples.fs1 = "/data/srv-1" /\
  descends (Path Examples.fs1) "/data/srv-10/x" = false /\
  SafePath (Disk.host Examples.siblings) Examples.fs1 "../srv-10/x"
  = ("/data/srv-10/x", None).
Proof. repeat split. Qed.

(** ** int64 *)

Lemma wrap_inRange (z : Z) : int64.inRange (int64.wrap z).
Proof.
  unfold int64.inRange, int64.wrap, int64.min, int64.max.
  pose proof (Z.mod_pos_bound (z + 2 ^ 63) (2 ^ 64) ltac:(lia)). lia.
Qed.

Lemma wrap_id (z : Z) : int64.inRange z -> int64.wrap z = z.
Proof.
  unfold int64.inRange, int64.wrap, int64.min, int64.max. intros H.
  rewrite Z.mod_small; lia.
Qed.

(** ** [DirectorySize] *)

Section DirectorySizeFacts.

Variable host : Host.
Variable fs : Filesystem.

(** The body of [DirectorySize]. *)
Lemma DirectorySize_S (n : nat) (dir : string) :
  DirectorySize host fs (S n) dir =
  match SafePath host fs dir with
  | (_, Some err) => Some (0%Z, Some err)
  | (cleaned, None) =>
      match ReadDir host cleaned with
      | Fail err => Some (0%Z, Some err)
      | Ok files =>
          match rangeFiles (DirectorySize host fs n) cleaned files 0%Z with
          | None => None
          | Some size => Some (size, None)
          end
      end
  end.
Proof. reflexivity. Qed.

Lemma DirectorySize_top_failure (fuel : nat) (dir : string) (e : error) :
  topLevelFailure host fs dir e ->
  DirectorySize host fs (S fuel) dir = Some (0%Z, Some e).
Proof.
  intros [H | (cleaned & Hsafe & Hread)]; rewrite DirectorySize_S.
  - destruct (SafePath host fs dir) as [c o]. simpl in H. subst o. reflexivity.
  - rewrite Hsafe, Hread. reflexivity.
Qed.

Lemma DirectorySize_error_inv (fuel : nat) (dir : string) (s : Z) (e : error) :
  DirectorySize host fs fuel dir = Some (s, Some e) ->
  s = 0%Z /\ topLevelFailure host fs dir e.
Proof.
  destruct fuel as [|n]; [discriminate|]. rewrite DirectorySize_S.
  unfold topLevelFailure.
  destruct (SafePath host fs dir) as [cleaned [err|]] eqn:Hsafe.
  - intros [= <- <-]. split; [reflexivity|]. left. reflexivity.
  - destruct (ReadDir host cleaned) as [files|err] eqn:Hread.
    + destruct (rangeFiles _ _ _ _); discriminate.
    + intros [= <- <-]. split; [reflexivity|]. right. eauto.
Qed.

(** More fuel does not change a result. *)
Lemma rangeFiles_mono (call1 call2 : string -> option (Z * option error))
    (cleaned : string) :
  (forall d r, call1 d = Some r -> call2 d = Some r) ->
  forall files size total,
    rangeFiles call1 cleaned files size = Some total ->
    rangeFiles call2 cleaned files size = Some total.
Proof.
  intros Hcall files. induction files as [|f files IH]; intros size total.
  - trivial.
  - cbn [rangeFiles]. destruct (IsDir f); [|apply IH].
    destruct (call1 (filepath.Join [cleaned; Name f])) as [[s o]|] eqn:E;
      [|discriminate].
    rewrite (Hcall _ _ E). apply IH.
Qed.

Lemma DirectorySize_fuel_S (fuel : nat) :
  forall dir r,
    DirectorySize host fs fuel dir = Some r ->
    DirectorySize host fs (S fuel) dir = Some r.
Proof.
  induction fuel as [|n IH]; intros dir r; [discriminate|].
  intros H. rewrite DirectorySize_S in H. rewrite DirectorySize_S.
  destruct (SafePath host fs dir) as [cleaned [err|]]; [exact H|].
  destruct (ReadDir host cleaned) as [files|err]; [|exact H].
  destruct (rangeFiles (DirectorySize host fs n) cleaned files 0)
    as [total|] eqn:E; [|discriminate].
  rewrite (rangeFiles_mono _ _ cleaned IH _ _ _ E). exact H.
Qed.

Lemma DirectorySize_fuel_add (k fuel : nat) (dir : string)
    (r : Z * option error) :
  DirectorySize host fs fuel dir = Some r ->
  DirectorySize host fs (k + fuel) dir = Some r.
Proof.
  intros H. induction k as [|k IH]; [exact H|].
  cbn [Nat.add]. apply DirectorySize_fuel_S, IH.
Qed.

End DirectorySizeFacts.

(** A server directory that cannot be listed: the error of the listing is
    the error of the call. *)
Example DirectorySize_locked_root :
  DirectorySize (Disk.host Examples.locked) Examples.fs1 1 "/"
  = Some (0%Z, Some EACCES).
Proof. reflexivity. Qed.

(** C7. The tree holds [a.txt] (10 bytes) and the directory [sub] with
    [b.txt] (20 bytes) and [c.txt] (30 bytes). The call on [sub] is made
    with the absolute path [/data/srv-1/sub], which [SafePath] joins to the
    root once more; [/data/srv-1/data/srv-1/sub] cannot be listed, so [sub]
    adds nothing and the total is 10, whatever the depth allowed. *)
Theorem DirectorySize_nested_files_not_counted (k : nat) :
  regularBytes Examples.nested (Path Examples.fs1) = 60%Z /\
  SafePath (Disk.host Examples.nested) Examples.fs1 "/data/srv-1/sub"
    = ("/data/srv-1/data/srv-1/sub", None) /\
  DirectorySize (Disk.host Examples.nested) Examples.fs1 (k + 2) "/"
    = Some (10%Z, None).
Proof.
  split; [vm_compute; reflexivity|].
  split; [vm_compute; reflexivity|].
  apply DirectorySize_fuel_add. vm_compute. reflexivity.
Qed.

(** ** The comparison with the quota *)

Lemma quot_nonpos (a b : Z) : (a <= 0)%Z -> (0 < b)%Z -> (Z.quot a b <= 0)%Z.
Proof.
  intros Ha Hb. replace a with (- (- a))%Z by lia.
  rewrite Z.quot_opp_l by lia.
  pose proof (Z.quot_pos (- a) b ltac:(lia) Hb). lia.
Qed.

(** For a quota above zero the truncated divisions of the code and the
    division rounding down give the same answer, also for a negative
    size. *)
Lemma fits_floor (u q : Z) :
  (0 < q)%Z -> fits u q = (u / 2 ^ 20 <=? q)%Z.
Proof.
  intros Hq. unfold fits, int64.div.
  change (2 ^ 20)%Z with (1024 * 1024)%Z.
  destruct (Z_le_gt_dec 0 u) as [Hu | Hu].
  - rewrite (Z.quot_div_nonneg u 1024) by lia.
    rewrite Z.quot_div_nonneg
      by (try lia; apply Z.div_pos; lia).
    rewrite Z.div_div by lia. reflexivity.
  - pose proof (quot_nonpos u 1024 ltac:(lia) ltac:(lia)) as H1.
    pose proof (quot_nonpos _ 1024 H1 ltac:(lia)) as H2.
    assert (u / (1024 * 1024) < 0)%Z by (apply Z.div_lt_upper_bound; lia).
    transitivity true; [|symmetry]; apply Z.leb_le; lia.
Qed.

Lemma fits_zero (q : Z) : (0 < q)%Z -> fits 0 q = true.
Proof.
  intros Hq. unfold fits, int64.div.
  rewrite !Z.quot_0_l by lia. apply Z.leb_le. lia.
Qed.

(** ** The cache *)

Lemma Get_Set (c : gmap string cache.Item) (k : string) (x d t0 now : Z) :
  cache.Get (cache.Set_ c k x d t0) k now
  = if (now <=? t0 + d)%Z then Some x else None.
Proof. unfold cache.Get, cache.Set_. rewrite lookup_insert_eq. reflexivity. Qed.

Lemma Get_empty (k : string) (now : Z) : cache.Get ∅ k now = None.
Proof. unfold cache.Get. rewrite lookup_empty. reflexivity. Qed.

(** ** [HasSpaceAvailable] *)

Section HasSpaceAvailableFacts.

Variable host : Host.
Variable fs : Filesystem.

Let space : Z := DiskSpace (Srv fs).

Lemma HasSpaceAvailable_unlimited (fuel : nat) (now later : Z)
    (c : gmap string cache.Item) :
  (space <= 0)%Z ->
  HasSpaceAvailable host fs fuel now later c = Some (true, c, []).
Proof.
  intros H. unfold HasSpaceAvailable. fold space.
  apply Z.leb_le in H. rewrite H. reflexivity.
Qed.

(** A usage other than zero found in the cache is compared as it is. *)
Lemma HasSpaceAvailable_hit (fuel : nat) (now later : Z)
    (c : gmap string cache.Item) (v : Z) :
  (0 < space)%Z -> cache.Get c "disk_used" now = Some v -> v <> 0%Z ->
  HasSpaceAvailable host fs fuel now later c = Some (fits v space, c, []).
Proof.
  intros Hq Hget Hv. unfold HasSpaceAvailable. fold space.
  apply Z.leb_gt in Hq. rewrite Hq, Hget.
  apply Z.eqb_neq in Hv. rewrite Hv. reflexivity.
Qed.

(** Without a usage in the cache, or with the usage zero, the directory is
    walked, and the size compared is the zero of the outer variable. *)
Lemma HasSpaceAvailable_walks (fuel : nat) (now later : Z)
    (c : gmap string cache.Item) :
  (0 < space)%Z ->
  cache.Get c "disk_used" now = None \/
  cache.Get c "disk_used" now = Some 0%Z ->
  HasSpaceAvailable host fs fuel now later c =
  match DirectorySize host fs fuel "/" with
  | None => None
  | Some (_, Some err) =>
      Some (true, c, [Walk "/"; Warn (Uuid (Srv fs)) err])
  | Some (size_walk, None) =>
      Some (true,
            cache.Set_ c "disk_used" size_walk (time.Minute * 5) later,
            [Walk "/"])
  end.
Proof.
  intros Hq Hget. unfold HasSpaceAvailable. fold space.
  pose proof (fits_zero _ Hq) as Hfits.
  apply Z.leb_gt in Hq. rewrite Hq.
  destruct Hget as [-> | ->]; cbv zeta; cbn [Z.eqb]; rewrite Hfits;
    reflexivity.
Qed.

End HasSpaceAvailableFacts.

(** C8. With a quota of zero or less the answer is [true] whatever the
    cache holds and whatever is on the disk; the cache is left as it is and
    neither a walk nor a warning happens. *)
Theorem HasSpaceAvailable_unlimited_quota
    (host : Host) (fs : Filesystem) (fuel : nat) (now later : Z)
    (c : gmap string cache.Item) :
  (DiskSpace (Srv fs) <= 0)%Z ->
  HasSpaceAvailable host fs fuel now later c = Some (true, c, []).
Proof. apply HasSpaceAvailable_unlimited. Qed.

Lemma HasSpaceAvailable_unlimited_quota_witness :
  HasSpaceAvailable (Disk.host Examples.large) Examples.fsUnlimited 0 0 0 ∅
  = Some (true, ∅, []).
Proof.
  apply (HasSpaceAvailable_unlimited_quota
           (Disk.host Examples.large) Examples.fsUnlimited 0 0 0 ∅).
  simpl. lia.
Defined.

(** C9. The call has an answer whenever the walk it may start comes back,
    so no error leaves it; and when, with a quota above zero and nothing in
    the cache, the walk comes back with an error, a warning is logged, the
    cache is left as it is and the answer is [true]. *)
Theorem HasSpaceAvailable_walk_failure_answers_true
    (host : Host) (fs : Filesystem) (fuel : nat) (now later : Z)
    (c : gmap string cache.Item) :
  (DirectorySize host fs fuel "/" <> None ->
   HasSpaceAvailable host fs fuel now later c <> None) /\
  (forall s e,
     (0 < DiskSpace (Srv fs))%Z ->
     cache.Get c "disk_used" now = None ->
     DirectorySize host fs fuel "/" = Some (s, Some e) ->
     HasSpaceAvailable host fs fuel now later c
     = Some (true, c, [Walk "/"; Warn (Uuid (Srv fs)) e])).
Proof.
  split.
  - intros Hwalk. unfold HasSpaceAvailable.
    destruct (DiskSpace (Srv fs) <=? 0)%Z; [discriminate|].
    destruct (_ =? 0)%Z; [|discriminate].
    destruct (DirectorySize host fs fuel "/") as [[s [e|]]|];
      [discriminate | discriminate | congruence].
  - intros s e Hq Hget Hwalk.
    rewrite (HasSpaceAvailable_walks host fs fuel now later c Hq (or_introl Hget)).
    rewrite Hwalk. reflexivity.
Qed.

Lemma HasSpaceAvailable_walk_failure_answers_true_witness :
  HasSpaceAvailable (Disk.host Examples.missing) Examples.fs1 1 0 0 ∅
  = Some (true, ∅, [Walk "/"; Warn "srv-1" InvalidPathResolution]).
Proof.
  apply (proj2 (HasSpaceAvailable_walk_failure_answers_true
                  (Disk.host Examples.missing) Examples.fs1 1 0 0 ∅)
               0%Z InvalidPathResolution).
  - simpl. lia.
  - apply Get_empty.
  - vm_compute. reflexivity.
Defined.

(** C2. The quota is one MiB, the cache is empty and the server directory
    holds one file of five MiB. The walk succeeds with 5242880 bytes, which
    are stored for five minutes from the time of the store; five MiB do not
    fit the quota, and yet the answer is [true]: the size compared is the
    outer variable, which is still zero. *)
Theorem HasSpaceAvailable_fresh_usage_not_compared (k : nat) (now later : Z) :
  DirectorySize (Disk.host Examples.large) Examples.fs1 (k + 1) "/"
    = Some (5242880%Z, None) /\
  fits 5242880 (DiskSpace (Srv Examples.fs1)) = false /\
  HasSpaceAvailable (Disk.host Examples.large) Examples.fs1 (k + 1) now later ∅
    = Some (true,
            cache.Set_ ∅ "disk_used" 5242880 (time.Minute * 5) later,
            [Walk "/"]).
Proof.
  assert (Hwalk : DirectorySize (Disk.host Examples.large) Examples.fs1
                    (k + 1) "/" = Some (5242880%Z, None)).
  { apply DirectorySize_fuel_add. vm_compute. reflexivity. }
  split; [exact Hwalk|]. split; [vm_compute; reflexivity|].
  rewrite HasSpaceAvailable_walks.
  - rewrite Hwalk. reflexivity.
  - simpl. lia.
  - left. apply Get_empty.
Qed.

(** C5, as amended. With a quota above zero, a usage other than zero that
    is in the cache and has not expired is compared with the quota, and
    nothing else happens: no walk, no store. So a usage other than zero
    stored at [t0] answers the call made four minutes later, and six
    minutes later the directory is walked again. *)
Theorem HasSpaceAvailable_reuses_cached_usage
    (host : Host) (fs : Filesystem) (v : Z) :
  (0 < DiskSpace (Srv fs))%Z ->
  v <> 0%Z ->
  (forall fuel now later c,
     cache.Get c "disk_used" now = Some v ->
     HasSpaceAvailable host fs fuel now later c
     = Some (fits v (DiskSpace (Srv fs)), c, [])) /\
  (forall fuel t0 later c0,
     let c := cache.Set_ c0 "disk_used" v (time.Minute * 5) t0 in
     HasSpaceAvailable host fs fuel (t0 + time.Minute * 4) later c
     = Some (fits v (DiskSpace (Srv fs)), c, [])) /\
  (forall fuel t0 later c0 r,
     let c := cache.Set_ c0 "disk_used" v (time.Minute * 5) t0 in
     DirectorySize host fs fuel "/" = Some r ->
     exists c' events,
       HasSpaceAvailable host fs fuel (t0 + time.Minute * 6) later c
       = Some (true, c', Walk "/" :: events)).
Proof.
  intros Hq Hv. split; [|split].
  - intros fuel now later c Hget. apply HasSpaceAvailable_hit; assumption.
  - intros fuel t0 later c0 c. apply HasSpaceAvailable_hit; try assumption.
    unfold c. rewrite Get_Set.
    replace (t0 + time.Minute * 4 <=? t0 + time.Minute * 5)%Z with true;
      [reflexivity|].
    symmetry. apply Z.leb_le. unfold time.Minute. lia.
  - intros fuel t0 later c0 [s o] c Hwalk.
    rewrite HasSpaceAvailable_walks; [|assumption|].
    + rewrite Hwalk. destruct o as [e|]; eauto.
    + left. unfold c. rewrite Get_Set.
      replace (t0 + time.Minute * 6 <=? t0 + time.Minute * 5)%Z with false;
        [reflexivity|].
      symmetry. apply Z.leb_gt. unfold time.Minute. lia.
Qed.

Lemma HasSpaceAvailable_reuses_cached_usage_witness :
  HasSpaceAvailable (Disk.host Examples.large) Examples.fs1 0
    (1000 + time.Minute * 4) 0
    (cache.Set_ ∅ "disk_used" 5242880 (time.Minute * 5) 1000)
  = Some (false, cache.Set_ ∅ "disk_used" 5242880 (time.Minute * 5) 1000, []).
Proof.
  apply (proj1 (proj2 (HasSpaceAvailable_reuses_cached_usage
                         (Disk.host Examples.large) Examples.fs1 5242880
                         ltac:(simpl; lia) ltac:(lia)))
               0%nat 1000%Z 0%Z ∅).
Defined.

(** C5, as the claim states it, fails: an entry that is present and has not
    expired does not keep the directory from being walked when the usage it
    holds is zero, as it is for a server directory with nothing in it. Here
    the entry was stored at time 0 and the call is made 50 ns later. *)
Lemma HasSpaceAvailable_cached_zero_counterexample :
  ~ (cache.Get (cache.Set_ ∅ "disk_used" 0 (time.Minute * 5) 0)
               "disk_used" 50 = Some 0%Z ->
     exists c' events,
       HasSpaceAvailable (Disk.host Examples.bare) Examples.fs1 1 50 60
         (cache.Set_ ∅ "disk_used" 0 (time.Minute * 5) 0)
       = Some (fits 0 (DiskSpace (Srv Examples.fs1)), c', events) /\
       ~ In (Walk "/") events).
Proof.
  intros H.
  destruct H as (c' & events & Hcall & Hnowalk).
  - rewrite Get_Set. reflexivity.
  - rewrite HasSpaceAvailable_walks in Hcall.
    + assert (Hwalk : DirectorySize (Disk.host Examples.bare) Examples.fs1 1 "/"
                      = Some (0%Z, None)) by (vm_compute; reflexivity).
      rewrite Hwalk in Hcall. injection Hcall as _ <-.
      apply Hnowalk. left. reflexivity.
    + simpl. lia.
    + right. rewrite Get_Set. reflexivity.
Qed.

(** C10. For a quota above zero the comparison of the last line holds
    exactly when the size divided by 2^20, rounded down, is at most the
    quota; a usage other than zero found in the cache is compared in this
    way, and the usage [q * 2^20 + (2^20 - 1)] under a quota of [q] MiB is
    answered with [true]. *)
Theorem HasSpaceAvailable_compares_whole_MiB
    (host : Host) (fs : Filesystem) (u : Z) :
  let q := DiskSpace (Srv fs) in
  (0 < q)%Z ->
  (fits u q = true <-> (u / 2 ^ 20 <= q)%Z) /\
  (forall fuel now later c,
     u <> 0%Z ->
     cache.Get c "disk_used" now = Some u ->
     HasSpaceAvailable host fs fuel now later c
     = Some ((u / 2 ^ 20 <=? q)%Z, c, [])) /\
  (forall fuel now later c,
     cache.Get c "disk_used" now = Some (q * 2 ^ 20 + (2 ^ 20 - 1))%Z ->
     HasSpaceAvailable host fs fuel now later c = Some (true, c, [])).
Proof.
  intros q Hq. split; [|split].
  - rewrite (fits_floor u q Hq). apply Z.leb_le.
  - intros fuel now later c Hu Hget.
    rewrite (HasSpaceAvailable_hit host fs fuel now later c u Hq Hget Hu).
    fold q. rewrite (fits_floor u q Hq). reflexivity.
  - intros fuel now later c Hget.
    rewrite (HasSpaceAvailable_hit host fs fuel now later c _ Hq Hget)
      by (change (2 ^ 20)%Z with 1048576%Z; lia).
    fold q. rewrite (fits_floor _ q Hq).
    replace ((q * 2 ^ 20 + (2 ^ 20 - 1)) / 2 ^ 20)%Z with q.
    + rewrite Z.leb_refl. reflexivity.
    + change (2 ^ 20)%Z with 1048576%Z.
      apply Z.div_unique with (r := 1048575%Z); lia.
Qed.

Lemma HasSpaceAvailable_compares_whole_MiB_witness :
  HasSpaceAvailable (Disk.host Examples.bare) Examples.fs1 0 10 20
    (cache.Set_ ∅ "disk_used" 2097151 (time.Minute * 5) 0)
  = Some (true, cache.Set_ ∅ "disk_used" 2097151 (time.Minute * 5) 0, []).
Proof.
  apply (proj2 (proj2 (HasSpaceAvailable_compares_whole_MiB
                         (Disk.host Examples.bare) Examples.fs1 2097151
                         ltac:(simpl; lia)))
               0%nat 10%Z 20%Z
               (cache.Set_ ∅ "disk_used" 2097151 (time.Minute * 5) 0)).
  rewrite Get_Set. reflexivity.
Defined.

(** ** The goroutines *)

Section RaceFacts.

Import Race.

(** The loop as a sum over the entries. *)
Lemma rangeFiles_entriesOf (call : string -> option (Z * option error))
    (cleaned : string) (files : list FileInfo) :
  forall acc,
    rangeFiles call cleaned files acc =
    match entriesOf call cleaned files with
    | Some es => Some (sumEntries es acc)
    | None => None
    end.
Proof.
  induction files as [|f files IH]; intros acc; [reflexivity|].
  cbn [rangeFiles entriesOf]. destruct (IsDir f).
  - destruct (call (filepath.Join [cleaned; Name f])) as [[s o]|].
    + rewrite IH. destruct (entriesOf call cleaned files); reflexivity.
    + destruct (entriesOf call cleaned files); reflexivity.
  - rewrite IH. destruct (entriesOf call cleaned files); reflexivity.
Qed.

(** Run in order, the goroutines leave the sum of the entries in
    [size]. *)
Lemma run_inOrder (es : list entry) :
  forall acc done,
    forallb isFinished done = true ->
    exists done',
      run (inOrder (length done) es) (mkState acc es None done)
      = Some (mkState (sumEntries es acc) [] None done') /\
      forallb isFinished done' = true.
Proof.
  induction es as [|[bytes|s] es IH]; intros acc done Hdone.
  - exists done. split; [reflexivity | exact Hdone].
  - destruct (IH (int64.add acc bytes) done Hdone) as (done' & Hrun & Hfin).
    exists done'. split; [|exact Hfin]. exact Hrun.
  - destruct (IH (int64.add acc s) (done ++ [Finished])%list) as (done' & Hrun & Hfin).
    { rewrite forallb_app, Hdone. reflexivity. }
    exists done'. split; [|exact Hfin].
    rewrite length_app, Nat.add_1_r in Hrun.
    cbn [inOrder run step stepMain todo pending size tasks].
    unfold stepTask. cbn [tasks size todo pending].
    rewrite list_lookup_middle by reflexivity.
    cbn [run step]. unfold stepTask. cbn [tasks size todo pending].
    rewrite list_lookup_insert_eq by (rewrite length_app; simpl; lia).
    rewrite list_insert_insert_eq.
    replace (<[length done := Finished]> (done ++ [Ready s])%list)
      with (done ++ [Finished])%list.
    + exact Hrun.
    + rewrite <- (Nat.add_0_r (length done)) at 1.
      rewrite insert_app_r. reflexivity.
Qed.

(** With the goroutines run in order, the model with goroutines returns
    what [DirectorySize] returns. *)
Lemma DirectorySize_inOrder (host : Host) (fs : Filesystem) (fuel : nat)
    (dir cleaned : string) (files : list FileInfo) (es : list entry) :
  SafePath host fs dir = (cleaned, None) ->
  ReadDir host cleaned = Ok files ->
  entriesOf (DirectorySize host fs fuel) cleaned files = Some es ->
  Race.DirectorySizeUnder host fs (inOrder 0 es) fuel dir
  = DirectorySize host fs (S fuel) dir.
Proof.
  intros Hsafe Hread Hes.
  rewrite DirectorySize_S. unfold Race.DirectorySizeUnder.
  rewrite Hsafe, Hread, rangeFiles_entriesOf, Hes.
  destruct (run_inOrder es 0%Z [] eq_refl) as (done' & Hrun & Hfin).
  cbn [length] in Hrun. unfold start. rewrite Hrun.
  unfold returned. cbn [todo pending tasks size]. rewrite Hfin. reflexivity.
Qed.

(** Resolving the directory and listing it come before the goroutines:
    their failure is the result under every schedule, and no other error
    is returned. *)
Lemma DirectorySizeUnder_error (host : Host) (fs : Filesystem)
    (schedule : list nat) (fuel : nat) (dir : string) (s : Z) (e : error) :
  Race.DirectorySizeUnder host fs schedule fuel dir = Some (s, Some e) <->
  s = 0%Z /\ topLevelFailure host fs dir e.
Proof.
  unfold Race.DirectorySizeUnder, topLevelFailure.
  destruct (SafePath host fs dir) as [cleaned [err|]] eqn:Hsafe.
  - split.
    + intros [= <- <-]. split; [reflexivity | left; reflexivity].
    + intros [-> [H | (c & Hc & _)]]; [simpl in H; congruence | discriminate].
  - destruct (ReadDir host cleaned) as [files|err] eqn:Hread.
    + split.
      * destruct (entriesOf _ _ _); [|discriminate].
        destruct (run _ _) as [st|]; [|discriminate].
        destruct (returned st); discriminate.
      * intros [_ [H | (c & Hc & Hr)]]; [discriminate|].
        assert (c = cleaned) by congruence. subst c. congruence.
    + split.
      * intros [= <- <-]. split; [reflexivity|]. right. eauto.
      * intros [-> [H | (c & Hc & Hr)]]; [discriminate|].
        assert (c = cleaned) by congruence. subst c. congruence.
Qed.

(** Without a directory in the listing there is no goroutine, and the
    schedule has no say in the total. *)
Lemma run_files_only (es : list entry) :
  Forall (fun e => exists bytes, e = FileEntry bytes) es ->
  forall acc schedule st total,
    run schedule (mkState acc es None []) = Some st ->
    returned st = Some total ->
    total = sumEntries es acc.
Proof.
  induction 1 as [|e es [bytes ->] _ IH]; intros acc schedule st total Hrun Hret.
  - destruct schedule as [|[|i] rest]; [|discriminate|discriminate].
    injection Hrun as <-. injection Hret as <-. reflexivity.
  - destruct schedule as [|[|i] rest]; [|cbn in Hrun|discriminate].
    + injection Hrun as <-. discriminate.
    + destruct rest as [|[|i] rest]; [|cbn in Hrun|discriminate].
      * injection Hrun as <-. discriminate.
      * exact (IH _ _ _ _ Hrun Hret).
Qed.

End RaceFacts.

(** C4. The server directory holds the directory [a] and the file [b.txt]
    of 10 bytes. Run in order the goroutines give the total 10. The
    additions to [size] are separate reads and writes, so the goroutine of
    [a] may read [size] before the loop adds the 10 bytes and write after
    it: the call then returns 0, the addition of the loop is lost. *)
Theorem DirectorySize_unsynchronized_total :
  ReadDir (Disk.host Examples.mixed) "/data/srv-1"
    = Ok [mkFileInfo "a" 4096 true; mkFileInfo "b.txt" 10 false] /\
  DirectorySize (Disk.host Examples.mixed) Examples.fs1 2 "/"
    = Some (10%Z, None) /\
  Race.DirectorySizeUnder (Disk.host Examples.mixed) Examples.fs1
    (Race.inOrder 0 [Race.DirEntry 0; Race.FileEntry 10]) 1 "/"
    = Some (10%Z, None) /\
  Race.DirectorySizeUnder (Disk.host Examples.mixed) Examples.fs1
    Examples.interleaved 1 "/"
    = Some (0%Z, None).
Proof. repeat split. Qed.

(** C6. Whatever the schedule, an error is returned, together with the
    size 0, exactly when resolving the requested directory or listing it
    fails: the error of a call on a directory of the listing never leaves
    the walk. Such a directory adds the 0 that its call returned, but its
    [size += 0] is a read and a write of [size] like any other. The server
    directory of [mixed] holds the directory [a], whose call fails, and
    [b.txt] of 10 bytes. Without [a] every schedule returns 10; with [a]
    the schedule [interleaved] returns 0: the write of the goroutine of [a]
    takes the 10 bytes of [b.txt] out of the total. *)
Theorem DirectorySize_failed_subdirectory_total :
  (forall host fs schedule fuel dir s e,
     Race.DirectorySizeUnder host fs schedule fuel dir = Some (s, Some e) <->
     s = 0%Z /\ topLevelFailure host fs dir e) /\
  ReadDir (Disk.host Examples.mixed) "/data/srv-1"
    = Ok [mkFileInfo "a" 4096 true; mkFileInfo "b.txt" 10 false] /\
  DirectorySize (Disk.host Examples.mixed) Examples.fs1 1 "/data/srv-1/a"
    = Some (0%Z, Some ENOENT) /\
  Race.entriesOf (DirectorySize (Disk.host Examples.mixed) Examples.fs1 1)
    "/data/srv-1" [mkFileInfo "a" 4096 true; mkFileInfo "b.txt" 10 false]
    = Some [Race.DirEntry 0; Race.FileEntry 10] /\
  ReadDir (Disk.host Examples.fileOnly) "/data/srv-1"
    = Ok [mkFileInfo "b.txt" 10 false] /\
  (forall schedule r,
     Race.DirectorySizeUnder (Disk.host Examples.fileOnly) Examples.fs1
       schedule 1 "/" = Some r ->
     r = (10%Z, None)) /\
  Race.DirectorySizeUnder (Disk.host Examples.fileOnly) Examples.fs1
    [0; 0]%nat 1 "/"
    = Some (10%Z, None) /\
  Race.DirectorySizeUnder (Disk.host Examples.mixed) Examples.fs1
    Examples.interleaved 1 "/"
    = Some (0%Z, None).
Proof.
  split; [intros; apply DirectorySizeUnder_error|].
  split; [vm_compute; reflexivity|].
  split; [vm_compute; reflexivity|].
  split; [vm_compute; reflexivity|].
  split; [vm_compute; reflexivity|].
  split; [|split; vm_compute; reflexivity].
  intros schedule r. unfold Race.DirectorySizeUnder.
  replace (SafePath (Disk.host Examples.fileOnly) Examples.fs1 "/")
    with ("/data/srv-1", @None error) by (vm_compute; reflexivity).
  replace (ReadDir (Disk.host Examples.fileOnly) "/data/srv-1")
    with (Ok [mkFileInfo "b.txt" 10 false]) by (vm_compute; reflexivity).
  cbn [Race.entriesOf IsDir Size].
  destruct (Race.run schedule (Race.start [Race.FileEntry 10]))
    as [st|] eqn:Hrun; [|discriminate].
  destruct (Race.returned st) as [total|] eqn:Hret; [|discriminate].
  intros [= <-].
  rewrite (run_files_only [Race.FileEntry 10]
             ltac:(repeat constructor; eauto) _ _ _ _ Hrun Hret).
  reflexivity.
Qed.

Lemma DirectorySize_failed_subdirectory_total_witness :
  Race.DirectorySizeUnder (Disk.host Examples.locked) Examples.fs1
    Examples.interleaved 0 "/"
  = Some (0%Z, Some EACCES).
Proof.
  apply (proj2 (proj1 DirectorySize_failed_subdirectory_total
                  (Disk.host Examples.locked) Examples.fs1
                  Examples.interleaved 0%nat "/" 0%Z EACCES)).
  split; [reflexivity|]. right. exists "/data/srv-1".
  split; vm_compute; reflexivity.
Defined.

(** * Further properties *)

(** ** Clean paths *)

Lemma append_cons (c : ascii) (a b : string) :
  String c a ++ b = String c (a ++ b).
Proof. reflexivity. Qed.

Lemma append_nil_l (b : string) : "" ++ b = b.
Proof. reflexivity. Qed.

Lemma append_assoc (a b c : string) : (a ++ b) ++ c = a ++ (b ++ c).
Proof.
  induction a as [|x a IH]; [reflexivity|].
  rewrite !append_cons, IH. reflexivity.
Qed.

Lemma append_nil_r (a : string) : a ++ "" = a.
Proof.
  induction a as [|x a IH]; [reflexivity|]. rewrite append_cons, IH. reflexivity.
Qed.

Lemma Split_cons_slash (s : string) :
  strings.Split (String "/" s) = "" :: strings.Split s.
Proof. reflexivity. Qed.

(** Splitting distributes over a slash between two strings. *)
Lemma Split_app_slash (a b : string) :
  strings.Split (a ++ "/" ++ b) = (strings.Split a ++ strings.Split b)%list.
Proof.
  induction a as [|c a IH].
  - reflexivity.
  - rewrite append_cons. cbn [strings.Split]. rewrite IH.
    destruct (Ascii.eqb c "/"); [reflexivity|].
    pose proof (Split_not_nil a) as Hne.
    destruct (strings.Split a) as [|h t]; [congruence|]. reflexivity.
Qed.

Lemma Split_no_slash (c : string) :
  filepath.hasSlash c = false -> strings.Split c = [c].
Proof.
  induction c as [|x c IH]; [reflexivity|].
  cbn [filepath.hasSlash strings.Split]. intros H.
  apply orb_false_iff in H as [Hx Hc]. rewrite Hx, (IH Hc). reflexivity.
Qed.

Lemma Split_elements_no_slash (s : string) :
  Forall (fun c => filepath.hasSlash c = false) (strings.Split s).
Proof.
  induction s as [|x s IH]; [repeat constructor|].
  cbn [strings.Split]. destruct (Ascii.eqb x "/") eqn:Hx.
  - constructor; [reflexivity | exact IH].
  - destruct (strings.Split s) as [|h t]; [repeat constructor; simpl; rewrite Hx; reflexivity|].
    inversion IH as [|? ? Hh Ht]; subst. constructor; [|exact Ht].
    cbn [filepath.hasSlash]. rewrite Hx, Hh. reflexivity.
Qed.

Lemma isName_no_slash (c : string) : isName c = true -> filepath.hasSlash c = false.
Proof.
  unfold isName. intros H. apply andb_prop in H as [_ H].
  apply negb_true_iff in H. exact H.
Qed.

Lemma Join_cons_cons (x y : string) (l : list string) :
  strings.Join (x :: y :: l) = x ++ "/" ++ strings.Join (y :: l).
Proof. reflexivity. Qed.

(** Joining elements without slashes and splitting again gives them back. *)
Lemma Split_Join (cs : list string) :
  cs <> [] -> Forall (fun c => filepath.hasSlash c = false) cs ->
  strings.Split (strings.Join cs) = cs.
Proof.
  induction cs as [|x cs IH]; [congruence|]. intros _ H.
  inversion H as [|? ? Hx Hcs]; subst.
  destruct cs as [|y cs].
  - apply Split_no_slash, Hx.
  - rewrite Join_cons_cons, Split_app_slash, (Split_no_slash _ Hx), IH by (congruence || assumption).
    reflexivity.
Qed.

Lemma Join_app (a b : list string) :
  a <> [] -> b <> [] ->
  strings.Join (a ++ b) = strings.Join a ++ "/" ++ strings.Join b.
Proof.
  induction a as [|x a IH]; [congruence|]. intros _ Hb.
  destruct a as [|y a].
  - destruct b as [|z b]; [congruence|]. reflexivity.
  - change ((x :: y :: a) ++ b)%list with (x :: ((y :: a) ++ b))%list.
    change ((y :: a) ++ b)%list with (y :: (a ++ b))%list.
    rewrite !Join_cons_cons.
    change (y :: (a ++ b))%list with ((y :: a) ++ b)%list.
    rewrite IH by (congruence || assumption).
    rewrite append_assoc. reflexivity.
Qed.

Lemma isName_inv (c : string) :
  isName c = true ->
  (c =? "") = false /\ (c =? ".") = false /\ (c =? "..") = false.
Proof.
  unfold isName. intros H.
  apply andb_prop in H as [H _]. apply andb_prop in H as [H H3].
  apply andb_prop in H as [H1 H2].
  apply negb_true_iff in H1, H2, H3. auto.
Qed.

(** [cleanParts] on a list that comes in two pieces. *)
Lemma cleanParts_app (rooted : bool) (l1 l2 : list string) :
  forall out,
    filepath.cleanParts rooted out (l1 ++ l2)
    = filepath.cleanParts rooted (rev (filepath.cleanParts rooted out l1)) l2.
Proof.
  induction l1 as [|c l1 IH]; intros out.
  - cbn [app filepath.cleanParts]. rewrite rev_involutive. reflexivity.
  - change ((c :: l1) ++ l2)%list with (c :: (l1 ++ l2))%list.
    cbn [filepath.cleanParts].
    destruct ((c =? "") || (c =? ".")); [apply IH|].
    destruct (c =? ".."); [|apply IH].
    destruct out as [|top out'].
    + destruct rooted; apply IH.
    + destruct (top =? ".."); apply IH.
Qed.

(** Names are kept. *)
Lemma cleanParts_names (rooted : bool) (cs : list string) :
  Forall (fun c => isName c = true) cs ->
  forall out, filepath.cleanParts rooted out cs = (rev out ++ cs)%list.
Proof.
  induction 1 as [|c cs Hc _ IH]; intros out.
  - cbn [filepath.cleanParts]. rewrite app_nil_r. reflexivity.
  - destruct (isName_inv _ Hc) as (H1 & H2 & H3).
    cbn [filepath.cleanParts]. rewrite H1, H2, H3. cbn [orb].
    rewrite IH. cbn [rev]. rewrite <- app_assoc. reflexivity.
Qed.

(** Below the root only names are left. *)
Lemma cleanParts_rooted_names (parts : list string) :
  Forall (fun c => filepath.hasSlash c = false) parts ->
  forall out,
    Forall (fun c => isName c = true) out ->
    Forall (fun c => isName c = true) (filepath.cleanParts true out parts).
Proof.
  induction 1 as [|c parts Hc _ IH]; intros out Hout.
  - cbn [filepath.cleanParts]. apply Forall_rev, Hout.
  - cbn [filepath.cleanParts].
    destruct (c =? "") eqn:H1; [apply IH, Hout|].
    destruct (c =? ".") eqn:H2; [apply IH, Hout|]. cbn [orb].
    destruct (c =? "..") eqn:H3.
    + destruct out as [|top out']; [apply IH, Hout|].
      inversion Hout as [|? ? Htop Hout']; subst.
      destruct (isName_inv _ Htop) as (_ & _ & ->). apply IH, Hout'.
    + apply IH. constructor; [|exact Hout].
      unfold isName. rewrite H1, H2, H3, Hc. reflexivity.
Qed.

(** Without [..] among the parts nothing written before is removed. *)
Lemma cleanParts_no_dotdot (rooted : bool) (parts : list string) :
  Forall (fun c => (c =? "..") = false) parts ->
  forall out, exists more,
    filepath.cleanParts rooted out parts = (rev out ++ more)%list.
Proof.
  induction 1 as [|c parts Hc _ IH]; intros out.
  - exists []. cbn [filepath.cleanParts]. rewrite app_nil_r. reflexivity.
  - cbn [filepath.cleanParts]. rewrite Hc.
    destruct ((c =? "") || (c =? ".")); [apply IH|].
    destruct (IH (c :: out)) as [more Hmore]. exists (c :: more).
    rewrite Hmore. cbn [rev]. rewrite <- app_assoc. reflexivity.
Qed.

Lemma HasPrefix_slash_absolute (cs : list string) :
  strings.HasPrefix (absolute cs) "/" = true.
Proof.
  unfold absolute. rewrite append_cons, HasPrefix_cons. apply HasPrefix_nil.
Qed.

Lemma Clean_rooted (path : string) :
  strings.HasPrefix path "/" = true ->
  filepath.Clean path
  = absolute (filepath.cleanParts true [] (strings.Split path)).
Proof.
  intros H. unfold filepath.Clean. rewrite H.
  destruct path; [discriminate|]. reflexivity.
Qed.

Lemma Split_absolute (cs : list string) :
  Forall (fun c => isName c = true) cs ->
  filepath.cleanParts true [] (strings.Split (absolute cs)) = cs.
Proof.
  intros H. unfold absolute. rewrite append_cons, append_nil_l, Split_cons_slash.
  cbn [filepath.cleanParts String.eqb orb].
  destruct cs as [|c cs]; [reflexivity|].
  rewrite Split_Join.
  - apply cleanParts_names, H.
  - discriminate.
  - eapply Forall_impl; [exact H|]. intros a. apply isName_no_slash.
Qed.

(** [Clean] leaves an absolute clean path as it is. *)
Lemma Clean_absolute (cs : list string) :
  Forall (fun c => isName c = true) cs ->
  filepath.Clean (absolute cs) = absolute cs.
Proof.
  intros H. rewrite Clean_rooted by apply HasPrefix_slash_absolute.
  rewrite (Split_absolute _ H).
  reflexivity.
Qed.

(** What [Clean] returns for an absolute path. *)
Lemma Clean_rooted_names (path : string) :
  strings.HasPrefix path "/" = true ->
  exists cs, Forall (fun c => isName c = true) cs /\
             filepath.Clean path = absolute cs.
Proof.
  intros H. eexists. split; [|apply Clean_rooted, H].
  apply cleanParts_rooted_names; [apply Split_elements_no_slash | constructor].
Qed.

Lemma Join_two (a b : string) :
  a <> "" -> filepath.Join [a; b] = filepath.Clean (a ++ "/" ++ b).
Proof.
  intros Ha. cbn [filepath.Join]. apply String.eqb_neq in Ha. rewrite Ha.
  reflexivity.
Qed.

Lemma absolute_not_empty (cs : list string) : absolute cs <> "".
Proof. unfold absolute. rewrite append_cons. discriminate. Qed.

(** Cleaning an absolute clean path followed by more elements: the elements
    are worked off on top of the ones of the path. *)
Lemma Clean_absolute_app (cs : list string) (p : string) :
  Forall (fun c => isName c = true) cs ->
  filepath.Clean (absolute cs ++ "/" ++ p)
  = absolute (filepath.cleanParts true (rev cs) (strings.Split p)).
Proof.
  intros H. rewrite Clean_rooted.
  - rewrite Split_app_slash, cleanParts_app, (Split_absolute _ H). reflexivity.
  - unfold absolute. rewrite !append_cons, HasPrefix_cons. apply HasPrefix_nil.
Qed.

Lemma Join_absolute (cs : list string) (p : string) :
  Forall (fun c => isName c = true) cs ->
  filepath.Join [absolute cs; p]
  = absolute (filepath.cleanParts true (rev cs) (strings.Split p)).
Proof.
  intros H. rewrite Join_two by apply absolute_not_empty.
  apply Clean_absolute_app, H.
Qed.

Lemma cleanParts_absolute_names (cs : list string) (p : string) :
  Forall (fun c => isName c = true) cs ->
  Forall (fun c => isName c = true)
         (filepath.cleanParts true (rev cs) (strings.Split p)).
Proof.
  intros H. apply cleanParts_rooted_names.
  - apply Split_elements_no_slash.
  - apply Forall_rev, H.
Qed.

Lemma HasPrefix_slash_inv (s : string) :
  strings.HasPrefix s "/" = true -> exists r, s = String "/" r.
Proof.
  destruct s as [|c r]; [discriminate|]. unfold strings.HasPrefix. cbn [String.prefix].
  destruct (ascii_dec "/" c) as [<-|]; [|discriminate]. eauto.
Qed.

(** With an absolute data root the confined root is an absolute clean
    path. *)
Lemma Path_absolute (fs : Filesystem) :
  strings.HasPrefix (Root fs) "/" = true ->
  exists rs, Forall (fun c => isName c = true) rs /\ Path fs = absolute rs.
Proof.
  intros H. destruct (HasPrefix_slash_inv _ H) as [r Hr].
  unfold Path. rewrite Hr, Join_two by discriminate.
  apply Clean_rooted_names.
  rewrite append_cons, HasPrefix_cons. apply HasPrefix_nil.
Qed.

(** The candidate of a request, the confined root being [absolute rs]. *)
Lemma candidate_absolute (fs : Filesystem) (rs : list string) (p : string) :
  Forall (fun c => isName c = true) rs ->
  Path fs = absolute rs ->
  candidate fs p
  = absolute (filepath.cleanParts true (rev rs) (strings.Split p)).
Proof.
  intros Hrs HP. unfold candidate. rewrite HP, (Join_absolute _ _ Hrs).
  apply Clean_absolute, cleanParts_absolute_names, Hrs.
Qed.

Lemma hasSlash_app_slash (s l : string) :
  filepath.hasSlash (s ++ "/" ++ l) = true.
Proof.
  induction s as [|c s IH]; [reflexivity|].
  change (String c s ++ "/" ++ l) with (String c (s ++ "/" ++ l)).
  cbn [filepath.hasSlash]. rewrite IH. apply orb_true_r.
Qed.

Lemma upToLastSlash_no_slash (l : string) :
  filepath.hasSlash l = false -> filepath.upToLastSlash l = "".
Proof. destruct l as [|c l]; [reflexivity|]. intros H. cbn [filepath.upToLastSlash]. rewrite H. reflexivity. Qed.

Lemma upToLastSlash_app (s l : string) :
  filepath.hasSlash l = false ->
  filepath.upToLastSlash (s ++ "/" ++ l) = s ++ "/".
Proof.
  intros Hl. induction s as [|c s IH].
  - rewrite !append_nil_l, append_cons, append_nil_l.
    cbn [filepath.upToLastSlash filepath.hasSlash Ascii.eqb]. 
    rewrite (upToLastSlash_no_slash _ Hl). reflexivity.
  - change (String c s ++ "/" ++ l) with (String c (s ++ "/" ++ l)).
    change (String c s ++ "/") with (String c (s ++ "/")).
    cbn [filepath.upToLastSlash].
    change (filepath.hasSlash (String c (s ++ "/" ++ l)))
      with (Ascii.eqb c "/" || filepath.hasSlash (s ++ "/" ++ l)).
    rewrite hasSlash_app_slash, orb_true_r, IH. reflexivity.
Qed.

(** The directory of an absolute clean path is the path without its last
    element. *)
Lemma Dir_absolute_snoc (init : list string) (l : string) :
  Forall (fun c => isName c = true) init -> isName l = true ->
  filepath.Dir (absolute (init ++ [l])) = absolute init.
Proof.
  intros Hinit Hl. unfold filepath.Dir.
  destruct init as [|x init].
  - unfold absolute. cbn [app strings.Join].
    change ("/" ++ l) with ("" ++ "/" ++ l).
    rewrite (upToLastSlash_app _ _ (isName_no_slash _ Hl)). reflexivity.
  - unfold absolute. rewrite Join_app by discriminate.
    change (strings.Join [l]) with l.
    rewrite <- append_assoc.
    rewrite (upToLastSlash_app _ _ (isName_no_slash _ Hl)).
    fold (absolute (x :: init)).
    change (absolute (x :: init) ++ "/")
      with (absolute (x :: init) ++ "/" ++ "").
    rewrite (Clean_absolute_app _ "" Hinit).
    cbn [strings.Split filepath.cleanParts String.eqb orb].
    rewrite rev_involutive. reflexivity.
Qed.

Lemma Dir_absolute_prefix (cs : list string) :
  Forall (fun c => isName c = true) cs ->
  strings.HasPrefix (absolute cs) (filepath.Dir (absolute cs)) = true.
Proof.
  intros H. destruct (rev cs) as [|l rinit] eqn:E.
  - apply (f_equal (@rev string)) in E. rewrite rev_involutive in E. subst cs.
    reflexivity.
  - apply (f_equal (@rev string)) in E. rewrite rev_involutive in E.
    cbn [rev] in E. subst cs.
    apply Forall_app in H as [Hinit Hl]. inversion Hl; subst.
    rewrite Dir_absolute_snoc by assumption.
    unfold absolute. rewrite HasPrefix_app_both. apply Join_app_prefix.
Qed.

Lemma HasPrefix_empty_absolute (rs : list string) :
  strings.HasPrefix "" (absolute rs) = false.
Proof. reflexivity. Qed.

Lemma error_eq_ENOENT (e : error) : e = ENOENT \/ e <> ENOENT.
Proof. destruct e; (left; reflexivity) || (right; discriminate). Qed.

(** When the loop of [SafePath] leaves a resolution, one of the ancestors
    it wrote begins with the confined root. *)
Lemma walkUp_found (host : Host) (fs : Filesystem) (parts : list string) :
  forall n,
    walkUp host fs parts n <> "" ->
    exists k, (k <= n)%nat /\
      strings.HasPrefix (strings.Join (firstn k parts)) (Path fs) = true.
Proof.
  induction n as [|n IH]; intros H; [cbn in H; congruence|].
  cbn [walkUp] in H.
  destruct (strings.HasPrefix (strings.Join (firstn (S n) parts)) (Path fs)) eqn:Hpre.
  - exists (S n). split; [lia | exact Hpre].
  - cbn [negb] in H. congruence.
Qed.

(** X1. With an absolute data root, a path that [SafePath] returns without
    an error begins with the confined root. *)
Theorem SafePath_result_begins_with_root
    (host : Host) (fs : Filesystem) (p x : string) :
  strings.HasPrefix (Root fs) "/" = true ->
  SafePath host fs p = (x, None) ->
  strings.HasPrefix x (Path fs) = true.
Proof.
  intros Habs Hsafe.
  destruct (Path_absolute fs Habs) as (rs & Hrs & HP).
  destruct (EvalSymlinks host (candidate fs p)) as [t|e] eqn:Heval.
  - rewrite (SafePath_existing _ _ _ _ Heval) in Hsafe.
    unfold checkPrefix in Hsafe. cbn [String.eqb negb] in Hsafe.
    destruct (strings.HasPrefix t (Path fs)) eqn:Ht; [|discriminate].
    injection Hsafe as <-. exact Ht.
  - destruct (error_eq_ENOENT e) as [-> | Hne].
    + rewrite (SafePath_not_exist _ _ _ Heval) in Hsafe.
      unfold checkPrefix in Hsafe.
      destruct (walkUp host fs _ (depth fs p) =? "") eqn:Hw; cbn [negb] in Hsafe.
      * rewrite HP, HasPrefix_empty_absolute in Hsafe. discriminate.
      * destruct (strings.HasPrefix (walkUp host fs _ (depth fs p)) (Path fs));
          [|discriminate].
        cbn [negb] in Hsafe. injection Hsafe as <-.
        apply String.eqb_neq in Hw.
        destruct (walkUp_found _ _ _ _ Hw) as (k & Hk & Hpre).
        eapply HasPrefix_trans; [exact Hpre|].
        eapply HasPrefix_trans.
        { apply (Join_firstn_prefix _ k (depth fs p)), Hk. }
        unfold depth. rewrite firstn_all, Join_Split.
        rewrite (candidate_absolute fs rs p Hrs HP).
        apply Dir_absolute_prefix, cleanParts_absolute_names, Hrs.
    + rewrite (SafePath_io_error _ _ _ _ Heval Hne) in Hsafe. discriminate.
Qed.

Lemma SafePath_result_begins_with_root_witness :
  strings.HasPrefix "/data/srv-1/a.txt" (Path Examples.fs1) = true.
Proof.
  apply (SafePath_result_begins_with_root
           (Disk.host Examples.nested) Examples.fs1 "a.txt").
  - reflexivity.
  - vm_compute. reflexivity.
Defined.

(** X2. An error of [SafePath] comes with the empty path, and it is either
    [InvalidPathResolution] or the error with which the candidate failed to
    resolve; that a path does not exist is never reported. *)
Theorem SafePath_error_kinds
    (host : Host) (fs : Filesystem) (p x : string) (e : error) :
  SafePath host fs p = (x, Some e) ->
  x = "" /\ e <> ENOENT /\
  (e = InvalidPathResolution \/ EvalSymlinks host (candidate fs p) = Fail e).
Proof.
  intros Hsafe.
  destruct (EvalSymlinks host (candidate fs p)) as [t|e'] eqn:Heval.
  - rewrite (SafePath_existing _ _ _ _ Heval) in Hsafe.
    unfold checkPrefix in Hsafe. cbn [String.eqb negb] in Hsafe.
    destruct (strings.HasPrefix t (Path fs)); [discriminate|].
    injection Hsafe as <- <-. repeat split; [discriminate | left; reflexivity].
  - destruct (error_eq_ENOENT e') as [-> | Hne].
    + rewrite (SafePath_not_exist _ _ _ Heval) in Hsafe.
      unfold checkPrefix in Hsafe.
      destruct (negb (_ =? ""));
        [destruct (negb (strings.HasPrefix _ (Path fs)))
        |destruct (strings.HasPrefix "" (Path fs))];
        try discriminate;
        injection Hsafe as <- <-; repeat split;
        try discriminate; left; reflexivity.
    + rewrite (SafePath_io_error _ _ _ _ Heval Hne) in Hsafe.
      injection Hsafe as <- <-. repeat split; [exact Hne | right; reflexivity].
Qed.

Lemma SafePath_error_kinds_witness :
  "" = "" /\ EACCES <> ENOENT /\
  (EACCES = InvalidPathResolution \/
   EvalSymlinks (Disk.host Examples.locked)
                (candidate Examples.fs1 "world/level.dat") = Fail EACCES).
Proof.
  apply (SafePath_error_kinds (Disk.host Examples.locked) Examples.fs1
                              "world/level.dat" "" EACCES).
  vm_compute. reflexivity.
Defined.

(** X3. With an absolute data root the requests [""], ["/"] and ["."] all
    stand for the confined root itself. *)
Theorem candidate_of_root_requests (fs : Filesystem) :
  strings.HasPrefix (Root fs) "/" = true ->
  candidate fs "" = Path fs /\
  candidate fs "/" = Path fs /\
  candidate fs "." = Path fs.
Proof.
  intros Habs. destruct (Path_absolute fs Habs) as (rs & Hrs & HP).
  rewrite !(candidate_absolute fs rs _ Hrs HP), HP.
  change (filepath.cleanParts true (rev rs) (strings.Split ""))
    with (rev (rev rs)).
  change (filepath.cleanParts true (rev rs) (strings.Split "/"))
    with (rev (rev rs)).
  change (filepath.cleanParts true (rev rs) (strings.Split "."))
    with (rev (rev rs)).
  rewrite rev_involutive. repeat split; reflexivity.
Qed.

Lemma candidate_of_root_requests_witness :
  candidate Examples.fs1 "" = Path Examples.fs1 /\
  candidate Examples.fs1 "/" = Path Examples.fs1 /\
  candidate Examples.fs1 "." = Path Examples.fs1.
Proof.
  apply (candidate_of_root_requests Examples.fs1). reflexivity.
Defined.

(** X4. With an absolute data root, the candidate of a request without
    [..] among its elements begins with the confined root: only [..] can
    lead out of it before the links are resolved. This holds for an
    absolute request as well, which is taken below the root. *)
Theorem candidate_without_dotdot_begins_with_root
    (fs : Filesystem) (p : string) :
  strings.HasPrefix (Root fs) "/" = true ->
  hasDotDot p = false ->
  strings.HasPrefix (candidate fs p) (Path fs) = true.
Proof.
  intros Habs Hdd. destruct (Path_absolute fs Habs) as (rs & Hrs & HP).
  rewrite (candidate_absolute fs rs p Hrs HP), HP.
  destruct (cleanParts_no_dotdot true (strings.Split p)) with (out := rev rs)
    as [more Hmore].
  - unfold hasDotDot in Hdd. apply Forall_forall. intros c Hc.
    destruct (c =? "..") eqn:E; [|reflexivity].
    apply String.eqb_eq in E. subst c.
    assert (existsb (String.eqb "..") (strings.Split p) = true) as Hex.
    { apply existsb_exists. exists "..". split; [|reflexivity].
      apply list_elem_of_In, Hc. }
    congruence.
  - rewrite Hmore, rev_involutive. unfold absolute.
    rewrite HasPrefix_app_both. apply Join_app_prefix.
Qed.

Lemma candidate_without_dotdot_begins_with_root_witness :
  strings.HasPrefix (candidate Examples.fs1 "/etc/./passwd")
                    (Path Examples.fs1) = true.
Proof.
  apply (candidate_without_dotdot_begins_with_root Examples.fs1 "/etc/./passwd");
    reflexivity.
Defined.

Lemma Split_absolute_cons (cs : list string) :
  cs <> [] -> Forall (fun c => isName c = true) cs ->
  strings.Split (absolute cs) = "" :: cs.
Proof.
  intros Hne H. unfold absolute. rewrite append_cons, append_nil_l, Split_cons_slash.
  rewrite Split_Join; [reflexivity | exact Hne |].
  eapply Forall_impl; [exact H|]. intros a. apply isName_no_slash.
Qed.

Lemma absolute_snoc (cs : list string) (c : string) :
  cs <> [] -> absolute (cs ++ [c]) = absolute cs ++ "/" ++ c.
Proof.
  intros Hne. unfold absolute. rewrite Join_app by (assumption || discriminate).
  rewrite append_assoc. reflexivity.
Qed.

Lemma Join_absolute_name (cs : list string) (c : string) :
  Forall (fun c => isName c = true) cs -> isName c = true ->
  filepath.Join [absolute cs; c] = absolute (cs ++ [c]).
Proof.
  intros Hcs Hc. rewrite (Join_absolute _ _ Hcs).
  rewrite (Split_no_slash _ (isName_no_slash _ Hc)).
  rewrite cleanParts_names by (repeat constructor; exact Hc).
  rewrite rev_involutive. reflexivity.
Qed.

(** The candidate of a request that is an entry of the confined root
    written out in full: the root is put in front once more. *)
Lemma candidate_rooted_twice (fs : Filesystem) (rs : list string) (c : string) :
  Forall (fun c => isName c = true) rs -> rs <> [] ->
  Path fs = absolute rs -> isName c = true ->
  candidate fs (filepath.Join [Path fs; c]) = Path fs ++ Path fs ++ "/" ++ c.
Proof.
  intros Hrs Hne HP Hc.
  assert (Hrc : Forall (fun c => isName c = true) (rs ++ [c])).
  { apply Forall_app. split; [exact Hrs | repeat constructor; exact Hc]. }
  rewrite HP at 1. rewrite (Join_absolute_name _ _ Hrs Hc).
  rewrite (candidate_absolute fs rs _ Hrs HP).
  rewrite Split_absolute_cons by (try exact Hrc; destruct rs; discriminate).
  cbn [filepath.cleanParts String.eqb orb].
  rewrite (cleanParts_names true _ Hrc), rev_involutive.
  rewrite HP. unfold absolute at 1.
  rewrite Join_app by (try exact Hne; destruct rs; discriminate).
  fold (absolute (rs ++ [c])). rewrite absolute_snoc by exact Hne.
  unfold absolute. rewrite !append_assoc. reflexivity.
Qed.

(** X5. With an absolute data root other than [/], the path of an entry of
    the confined root, as [DirectorySize] hands it to itself, is taken as a
    request below the root again: its candidate is the root twice over. *)
Theorem candidate_of_entry_path (fs : Filesystem) (c : string) :
  strings.HasPrefix (Root fs) "/" = true ->
  Path fs <> "/" ->
  isName c = true ->
  candidate fs (filepath.Join [Path fs; c]) = Path fs ++ Path fs ++ "/" ++ c.
Proof.
  intros Habs Hroot Hc. destruct (Path_absolute fs Habs) as (rs & Hrs & HP).
  apply (candidate_rooted_twice fs rs c Hrs); try assumption.
  intros ->. apply Hroot. rewrite HP. reflexivity.
Qed.

Lemma candidate_of_entry_path_witness :
  candidate Examples.fs1 (filepath.Join [Path Examples.fs1; "sub"])
  = Path Examples.fs1 ++ Path Examples.fs1 ++ "/" ++ "sub".
Proof.
  apply (candidate_of_entry_path Examples.fs1 "sub").
  - reflexivity.
  - vm_compute. discriminate.
  - reflexivity.
Defined.

Lemma isListPrefix_app_r (l r : list string) : isListPrefix l (l ++ r) = true.
Proof.
  induction l as [|x l IH]; [reflexivity|].
  cbn [app isListPrefix]. rewrite String.eqb_refl, IH. reflexivity.
Qed.

(** X6. For a clean absolute data root other than [/] and a server
    identifier that is one ordinary path element, the confined root is the
    data root, a slash and the identifier, and it lies below the data
    root. *)
Theorem Path_of_clean_root (fs : Filesystem) :
  strings.HasPrefix (Root fs) "/" = true ->
  filepath.Clean (Root fs) = Root fs ->
  Root fs <> "/" ->
  isName (Uuid (Srv fs)) = true ->
  Path fs = Root fs ++ "/" ++ Uuid (Srv fs) /\
  descends (Root fs) (Path fs) = true.
Proof.
  intros Habs Hclean Hne Hid.
  destruct (Clean_rooted_names _ Habs) as (rs & Hrs & HR).
  rewrite Hclean in HR.
  assert (Hrs' : rs <> []).
  { intros ->. apply Hne. rewrite HR. reflexivity. }
  assert (HP : Path fs = absolute (rs ++ [Uuid (Srv fs)])).
  { unfold Path. rewrite HR. apply Join_absolute_name; assumption. }
  split.
  - rewrite HP, HR. apply absolute_snoc, Hrs'.
  - unfold descends. rewrite HP, HR.
    rewrite !Split_absolute_cons; try assumption.
    + change ("" :: rs ++ [Uuid (Srv fs)])%list
        with (("" :: rs) ++ [Uuid (Srv fs)])%list.
      apply isListPrefix_app_r.
    + destruct rs; discriminate.
    + apply Forall_app. split; [exact Hrs | repeat constructor; exact Hid].
Qed.

Lemma Path_of_clean_root_witness :
  Path Examples.fs1 = "/data" ++ "/" ++ "srv-1" /\
  descends "/data" (Path Examples.fs1) = true.
Proof.
  apply (Path_of_clean_root Examples.fs1).
  - reflexivity.
  - reflexivity.
  - discriminate.
  - reflexivity.
Defined.

Lemma wrap_add_l (a b : Z) : int64.wrap (int64.wrap a + b) = int64.wrap (a + b).
Proof.
  unfold int64.wrap. f_equal.
  replace ((a + 2 ^ 63) mod 2 ^ 64 - 2 ^ 63 + b + 2 ^ 63)%Z
    with ((a + 2 ^ 63) mod 2 ^ 64 + b)%Z by lia.
  rewrite Z.add_mod_idemp_l by lia. f_equal. lia.
Qed.

(** The loop when every call on a directory comes back with zero. *)
Lemma rangeFiles_plain (call : string -> option (Z * option error))
    (cleaned : string) (files : list FileInfo) :
  Forall (fun f => IsDir f = true ->
            exists o, call (filepath.Join [cleaned; Name f]) = Some (0%Z, o))
         files ->
  forall a,
    rangeFiles call cleaned files (int64.wrap a)
    = Some (int64.wrap (a + plainBytes files)).
Proof.
  induction 1 as [|f files Hf _ IH]; intros a.
  - cbn [rangeFiles plainBytes]. rewrite Z.add_0_r. reflexivity.
  - cbn [rangeFiles plainBytes]. destruct (IsDir f) eqn:Hdir.
    + destruct (Hf eq_refl) as [o ->]. unfold int64.add.
      rewrite wrap_add_l, Z.add_0_r. apply IH.
    + unfold int64.add. rewrite wrap_add_l, IH. f_equal. f_equal. lia.
Qed.

(** X7. For a directory whose listing holds no directory, [DirectorySize]
    returns the sum of the sizes of all its entries, taken on 64 bits:
    a link or any other entry that is not a directory counts with the size
    the listing gives for it. *)
Theorem DirectorySize_without_subdirectories
    (host : Host) (fs : Filesystem) (fuel : nat) (dir cleaned : string)
    (files : list FileInfo) :
  SafePath host fs dir = (cleaned, None) ->
  ReadDir host cleaned = Ok files ->
  forallb (fun f => negb (IsDir f)) files = true ->
  DirectorySize host fs (S fuel) dir
  = Some (int64.wrap (plainBytes files), None).
Proof.
  intros Hsafe Hread Hflat.
  rewrite DirectorySize_S, Hsafe, Hread.
  change 0%Z with (int64.wrap 0) at 1.
  rewrite rangeFiles_plain; [reflexivity|].
  apply Forall_forall. intros f Hf Hdir.
  rewrite forallb_forall in Hflat.
  specialize (Hflat f (proj1 (list_elem_of_In _ _) Hf)).
  rewrite Hdir in Hflat. discriminate.
Qed.

Lemma DirectorySize_without_subdirectories_witness :
  DirectorySize (Disk.host Cases.withLink) Examples.fs1 1 "/"
  = Some (15%Z, None).
Proof.
  apply (DirectorySize_without_subdirectories
           (Disk.host Cases.withLink) Examples.fs1 0 "/" "/data/srv-1"
           [mkFileInfo "a.txt" 10 false; mkFileInfo "latest" 5 false]).
  - vm_compute. reflexivity.
  - vm_compute. reflexivity.
  - reflexivity.
Defined.

(** The call of [DirectorySize] on a directory of the confined root, made
    with the path of the directory written out in full. *)
Lemma DirectorySize_entry_fails (host : Host) (fs : Filesystem)
    (f : FileInfo) (k : nat) :
  strings.HasPrefix (Root fs) "/" = true ->
  Path fs <> "/" ->
  notBelowItself host fs f ->
  exists o,
    DirectorySize host fs (S k) (filepath.Join [Path fs; Name f])
    = Some (0%Z, o).
Proof.
  intros Habs Hroot (Hname & [e He] & [e' He']).
  destruct (Path_absolute fs Habs) as (rs & Hrs & HP).
  assert (Hne : rs <> []).
  { intros ->. apply Hroot. rewrite HP. reflexivity. }
  pose proof (candidate_rooted_twice fs rs (Name f) Hrs Hne HP Hname) as Hcand.
  rewrite DirectorySize_S.
  destruct (SafePath host fs (filepath.Join [Path fs; Name f]))
    as [cleaned [err|]] eqn:Hsafe; [eauto|].
  rewrite <- Hcand in He, He'.
  destruct (error_eq_ENOENT e) as [-> | Hio].
  - rewrite (SafePath_not_exist _ _ _ He) in Hsafe.
    unfold checkPrefix in Hsafe.
    destruct (negb (_ =? "")).
    + destruct (negb (strings.HasPrefix _ (Path fs))); [discriminate|].
      assert (Hc : cleaned = candidate fs (filepath.Join [Path fs; Name f]))
        by congruence.
      rewrite Hc, He'. eauto.
    + rewrite HP, HasPrefix_empty_absolute in Hsafe. discriminate.
  - rewrite (SafePath_io_error _ _ _ _ He Hio) in Hsafe. discriminate.
Qed.

(** X9. Whenever a call of [HasSpaceAvailable] walks the directory, its
    answer is [true], whatever the walk finds. *)
Theorem HasSpaceAvailable_walk_answers_true
    (host : Host) (fs : Filesystem) (fuel : nat) (now later : Z)
    (c c' : gmap string cache.Item) (answer : bool) (events : list event) :
  HasSpaceAvailable host fs fuel now later c = Some (answer, c', events) ->
  In (Walk "/") events ->
  answer = true.
Proof.
  unfold HasSpaceAvailable. intros Hcall Hwalk.
  destruct (DiskSpace (Srv fs) <=? 0)%Z eqn:Hq.
  - injection Hcall as <- _ _. reflexivity.
  - apply Z.leb_gt in Hq.
    destruct (match cache.Get c "disk_used" now with
              | Some x => x
              | None => 0%Z
              end =? 0)%Z eqn:Hsize.
    + apply Z.eqb_eq in Hsize. rewrite Hsize, (fits_zero _ Hq) in Hcall.
      destruct (DirectorySize host fs fuel "/") as [[s [e|]]|];
        [| |discriminate]; injection Hcall as <- _ _; reflexivity.
    + injection Hcall as _ _ <-. destruct Hwalk.
Qed.

Lemma HasSpaceAvailable_walk_answers_true_witness : true = true.
Proof.
  apply (HasSpaceAvailable_walk_answers_true
           (Disk.host Examples.large) Examples.fs1 1 0 7 ∅
           (cache.Set_ ∅ "disk_used" 5242880 (time.Minute * 5) 7)
           true [Walk "/"]).
  - vm_compute. reflexivity.
  - left. reflexivity.
Defined.

(** X10. A call of [HasSpaceAvailable] leaves every key of the cache other
    than ["disk_used"] as it is, and it changes the cache only by storing
    the size that a successful walk returned, for five minutes from the
    time of the store. *)
Theorem HasSpaceAvailable_cache_frame
    (host : Host) (fs : Filesystem) (fuel : nat) (now later : Z)
    (c c' : gmap string cache.Item) (answer : bool) (events : list event) :
  HasSpaceAvailable host fs fuel now later c = Some (answer, c', events) ->
  (forall k, k <> "disk_used" -> c' !! k = c !! k) /\
  (c' = c \/
   exists size,
     DirectorySize host fs fuel "/" = Some (size, None) /\
     c' = cache.Set_ c "disk_used" size (time.Minute * 5) later).
Proof.
  unfold HasSpaceAvailable. intros Hcall.
  assert (Hcases :
    c' = c \/
    exists size,
      DirectorySize host fs fuel "/" = Some (size, None) /\
      c' = cache.Set_ c "disk_used" size (time.Minute * 5) later).
  { destruct (DiskSpace (Srv fs) <=? 0)%Z; [left; congruence|].
    destruct (_ =? 0)%Z; [|left; congruence].
    destruct (DirectorySize host fs fuel "/") as [[s [e|]]|];
      [left; congruence | right | discriminate].
    exists s. split; [reflexivity | congruence]. }
  split; [|exact Hcases].
  intros k Hk. destruct Hcases as [-> | (size & _ & ->)]; [reflexivity|].
  unfold cache.Set_. apply lookup_insert_ne. congruence.
Qed.

Lemma HasSpaceAvailable_cache_frame_witness :
  (forall k, k <> "disk_used" ->
     cache.Set_ ∅ "disk_used" 5242880 (time.Minute * 5) 7 !! k
     = (∅ : gmap string cache.Item) !! k) /\
  (cache.Set_ ∅ "disk_used" 5242880 (time.Minute * 5) 7 = ∅ \/
   exists size,
     DirectorySize (Disk.host Examples.large) Examples.fs1 1 "/"
       = Some (size, None) /\
     cache.Set_ ∅ "disk_used" 5242880 (time.Minute * 5) 7
     = cache.Set_ ∅ "disk_used" size (time.Minute * 5) 7).
Proof.
  apply (HasSpaceAvailable_cache_frame
           (Disk.host Examples.large) Examples.fs1 1 0 7 ∅
           (cache.Set_ ∅ "disk_used" 5242880 (time.Minute * 5) 7)
           true [Walk "/"]).
  vm_compute. reflexivity.
Defined.

(** X11. With a quota above zero and nothing in the cache, a call whose
    walk finds a size other than zero answers [true] and stores the size;
    a call made afterwards, up to five minutes after the store, does not
    walk and answers by that size. *)
Theorem HasSpaceAvailable_second_call
    (host : Host) (fs : Filesystem) (fuel fuel2 : nat)
    (now later now2 later2 : Z) (c : gmap string cache.Item) (size : Z) :
  (0 < DiskSpace (Srv fs))%Z ->
  cache.Get c "disk_used" now = None ->
  DirectorySize host fs fuel "/" = Some (size, None) ->
  size <> 0%Z ->
  (now2 <= later + time.Minute * 5)%Z ->
  exists c1,
    HasSpaceAvailable host fs fuel now later c = Some (true, c1, [Walk "/"]) /\
    HasSpaceAvailable host fs fuel2 now2 later2 c1
    = Some (fits size (DiskSpace (Srv fs)), c1, []).
Proof.
  intros Hq Hmiss Hwalk Hsize Hnow2.
  exists (cache.Set_ c "disk_used" size (time.Minute * 5) later). split.
  - rewrite (HasSpaceAvailable_walks host fs fuel now later c Hq (or_introl Hmiss)).
    rewrite Hwalk. reflexivity.
  - apply HasSpaceAvailable_hit; [exact Hq | | exact Hsize].
    rewrite Get_Set. apply Z.leb_le in Hnow2. rewrite Hnow2. reflexivity.
Qed.

Lemma HasSpaceAvailable_second_call_witness :
  exists c1,
    HasSpaceAvailable (Disk.host Examples.large) Examples.fs1 1 0 7 ∅
    = Some (true, c1, [Walk "/"]) /\
    HasSpaceAvailable (Disk.host Examples.large) Examples.fs1 0 100 110 c1
    = Some (fits 5242880 (DiskSpace (Srv Examples.fs1)), c1, []).
Proof.
  apply (HasSpaceAvailable_second_call
           (Disk.host Examples.large) Examples.fs1 1 0 0 7 100 110 ∅ 5242880).
  - simpl. lia.
  - apply Get_empty.
  - vm_compute. reflexivity.
  - lia.
  - unfold time.Minute. lia.
Defined.

(** X12. The comparison with the quota is monotone: if a size fits a quota,
    every smaller size fits every larger quota. *)
Theorem fits_monotone (size size' space space' : Z) :
  (size' <= size)%Z -> (space <= space')%Z ->
  fits size space = true -> fits size' space' = true.
Proof.
  unfold fits, int64.div. intros Hsize Hspace H.
  apply Z.leb_le in H. apply Z.leb_le.
  pose proof (Z.quot_le_mono size' size 1024 ltac:(lia) Hsize) as H1.
  pose proof (Z.quot_le_mono _ _ 1024 ltac:(lia) H1) as H2.
  lia.
Qed.

Lemma fits_monotone_witness : fits 1048576 2 = true.
Proof.
  apply (fits_monotone 2097152 1048576 2 2); [lia | lia | reflexivity].
Defined.


Lemma sumAmounts_nonneg (es : list Race.entry) :
  Forall (fun e => (0 <= Race.amount e)%Z) es -> (0 <= sumAmounts es)%Z.
Proof. induction 1; cbn [sumAmounts]; lia. Qed.

Lemma sumOwed_nonneg (gs : list Race.goroutine) :
  Forall (fun g => (0 <= owed g)%Z) gs -> (0 <= sumOwed gs)%Z.
Proof. induction 1; cbn [sumOwed]; lia. Qed.

Lemma sumOwed_app (gs hs : list Race.goroutine) :
  sumOwed (gs ++ hs) = (sumOwed gs + sumOwed hs)%Z.
Proof. induction gs as [|g gs IH]; cbn [app sumOwed]; lia. Qed.

Lemma sumOwed_insert (gs : list Race.goroutine) :
  forall i g g',
    gs !! i = Some g ->
    sumOwed (<[i := g']> gs) = (sumOwed gs - owed g + owed g')%Z.
Proof.
  induction gs as [|h gs IH]; intros [|i] g g' H; try discriminate.
  - injection H as ->. cbn [sumOwed]. simpl. lia.
  - simpl in H. simpl. rewrite (IH i g g' H). lia.
Qed.

Lemma sumOwed_lookup_le (gs : list Race.goroutine) :
  Forall (fun g => (0 <= owed g)%Z) gs ->
  forall i g, gs !! i = Some g -> (owed g <= sumOwed gs)%Z.
Proof.
  induction 1 as [|h gs Hh Hgs IH]; intros [|i] g H; try discriminate.
  - injection H as ->. pose proof (sumOwed_nonneg _ Hgs). cbn [sumOwed]. lia.
  - simpl in H. specialize (IH i g H). cbn [sumOwed]. lia.
Qed.

Lemma readWithin_less (total rest rest' : Z) (g : Race.goroutine) :
  (rest' <= rest)%Z -> readWithin total rest g -> readWithin total rest' g.
Proof. destruct g; unfold readWithin, within; intros; lia || trivial. Qed.

Lemma add_no_wrap (a b : Z) :
  (0 <= a)%Z -> (0 <= b)%Z -> (a + b <= int64.max)%Z ->
  int64.add a b = (a + b)%Z.
Proof.
  intros Ha Hb Hmax. unfold int64.add. apply wrap_id.
  unfold int64.inRange, int64.min, int64.max in *. lia.
Qed.

(** A step of any goroutine keeps the bound. *)
Lemma step_bounded (total : Z) (who : nat) (st st' : Race.state) :
  (total <= int64.max)%Z ->
  bounded total st -> Race.step who st = Some st' -> bounded total st'.
Proof.
  intros Hmax (Htodo & Htasks & Hsize & Hpend & Hread) Hstep.
  pose proof (sumAmounts_nonneg _ Htodo) as Hsa.
  pose proof (sumOwed_nonneg _ Htasks) as Hso.
  destruct st as [size todo pending tasks].
  unfold outstanding, within in *.
  cbn [Race.size Race.todo Race.pending Race.tasks] in *.
  destruct who as [|i]; cbn [Race.step] in Hstep.
  - (* the loop *)
    unfold Race.stepMain in Hstep.
    cbn [Race.size Race.todo Race.pending Race.tasks] in Hstep.
    destruct todo as [|[bytes|s] rest]; [discriminate| |];
      inversion Htodo as [|? ? Hb Hrest]; subst; cbn [Race.amount] in Hb;
      cbn [sumAmounts Race.amount] in *;
      pose proof (sumAmounts_nonneg _ Hrest) as Hsr.
    + destruct pending as [old|]; injection Hstep as <-;
        unfold bounded, outstanding, within;
        cbn [Race.size Race.todo Race.pending Race.tasks sumAmounts Race.amount].
      * destruct (Hpend old eq_refl) as [Hold1 Hold2].
        rewrite add_no_wrap by lia.
        refine (conj Hrest (conj Htasks (conj _ (conj _ _)))).
        -- lia.
        -- intros ? [=].
        -- eapply Forall_impl; [exact Hread|].
           intros g. apply readWithin_less. lia.
      * refine (conj Htodo (conj Htasks (conj _ (conj _ Hread)))).
        -- cbn [sumAmounts Race.amount]. lia.
        -- intros old [= <-]. cbn [sumAmounts Race.amount]. lia.
    + injection Hstep as <-.
      unfold bounded, outstanding, within;
        cbn [Race.size Race.todo Race.pending Race.tasks].
      rewrite sumOwed_app. cbn [sumOwed owed].
      refine (conj Hrest (conj _ (conj _ (conj _ _)))).
      * apply Forall_app. split; [exact Htasks|]. repeat constructor. exact Hb.
      * lia.
      * intros ? [=].
      * apply Forall_app. split.
        -- eapply Forall_impl; [exact Hread|].
           intros g. apply readWithin_less. lia.
        -- repeat constructor.
  - (* the goroutine [i] *)
    unfold Race.stepTask in Hstep.
    cbn [Race.size Race.todo Race.pending Race.tasks] in Hstep.
    destruct (tasks !! i) as [[s|s old|]|] eqn:Hi; try discriminate;
      injection Hstep as <-;
      unfold bounded, outstanding, within;
      cbn [Race.size Race.todo Race.pending Race.tasks];
      rewrite (sumOwed_insert _ _ _ _ Hi); cbn [owed];
      pose proof (Forall_lookup_1 _ _ _ _ Htasks Hi) as Hs; cbn [owed] in Hs.
    + refine (conj Htodo (conj _ (conj _ (conj _ _)))).
      * apply Forall_insert; [exact Htasks | exact Hs].
      * lia.
      * intros old Hold. destruct (Hpend old Hold). lia.
      * apply Forall_insert.
        -- eapply Forall_impl; [exact Hread|].
           intros g. apply readWithin_less. lia.
        -- unfold readWithin, within. lia.
    + pose proof (Forall_lookup_1 _ _ _ _ Hread Hi) as [Ho1 Ho2].
      pose proof (sumOwed_lookup_le _ Htasks _ _ Hi) as Hle. cbn [owed] in Hle.
      rewrite add_no_wrap by lia.
      refine (conj Htodo (conj _ (conj _ (conj _ _)))).
      * apply Forall_insert; [exact Htasks | cbn [owed]; lia].
      * lia.
      * intros old' Hold. destruct (Hpend old' Hold). lia.
      * apply Forall_insert; [|exact I].
        eapply Forall_impl; [exact Hread|].
        intros g. apply readWithin_less. lia.
Qed.

Lemma run_bounded (total : Z) (schedule : list nat) :
  (total <= int64.max)%Z ->
  forall st st',
    bounded total st -> Race.run schedule st = Some st' -> bounded total st'.
Proof.
  intros Hmax. induction schedule as [|who rest IH]; intros st st' Hb Hrun.
  - injection Hrun as <-. exact Hb.
  - cbn [Race.run] in Hrun.
    destruct (Race.step who st) as [st1|] eqn:Hstep; [|discriminate].
    apply (IH st1 st'); [|exact Hrun].
    exact (step_bounded total who st st1 Hmax Hb Hstep).
Qed.

Lemma start_bounded (entries : list Race.entry) :
  Forall (fun e => (0 <= Race.amount e)%Z) entries ->
  bounded (sumAmounts entries) (Race.start entries).
Proof.
  intros H. pose proof (sumAmounts_nonneg _ H).
  unfold bounded, Race.start, outstanding, within.
  cbn [Race.size Race.todo Race.pending Race.tasks sumOwed].
  refine (conj H (conj _ (conj _ (conj _ _)))).
  - constructor.
  - lia.
  - intros ? [=].
  - constructor.
Qed.

(** X13. The amounts of the entries are not negative and their sum fits 64
    bits. Then, whatever the schedule of the goroutines, the total that is
    returned lies between zero and the sum of the amounts: an addition to
    [size] can be lost, but nothing is counted twice. *)
Theorem Race_total_never_exceeds_sum
    (entries : list Race.entry) (schedule : list nat)
    (st : Race.state) (total : Z) :
  Forall (fun e => (0 <= Race.amount e)%Z) entries ->
  (sumAmounts entries <= int64.max)%Z ->
  Race.run schedule (Race.start entries) = Some st ->
  Race.returned st = Some total ->
  (0 <= total <= sumAmounts entries)%Z.
Proof.
  intros Hpos Hmax Hrun Hret.
  pose proof (run_bounded _ schedule Hmax _ _ (start_bounded _ Hpos) Hrun)
    as (Htodo & Htasks & [Hs1 Hs2] & _ & _).
  pose proof (sumAmounts_nonneg _ Htodo).
  pose proof (sumOwed_nonneg _ Htasks).
  unfold outstanding in Hs2. unfold Race.returned in Hret.
  assert (Race.size st = total) as <-.
  { destruct (Race.todo st); [|discriminate].
    destruct (Race.pending st); [discriminate|].
    destruct (forallb Race.isFinished (Race.tasks st)); [|discriminate].
    congruence. }
  lia.
Qed.

Lemma Race_total_never_exceeds_sum_witness : (0 <= 0 <= 10)%Z.
Proof.
  apply (Race_total_never_exceeds_sum
           [Race.DirEntry 0; Race.FileEntry 10] Examples.interleaved
           (Race.mkState 0 [] None [Race.Finished]) 0).
  - repeat constructor; simpl; lia.
  - vm_compute. discriminate.
  - reflexivity.
  - reflexivity.
Defined.

(** The entries the loop finds when every call on a directory comes back
    with zero. *)
Lemma entriesOf_plain (call : string -> option (Z * option error))
    (cleaned : string) (files : list FileInfo) :
  Forall (fun f => IsDir f = true ->
            exists o, call (filepath.Join [cleaned; Name f]) = Some (0%Z, o))
         files ->
  Forall (fun f => IsDir f = false -> (0 <= Size f)%Z) files ->
  exists es,
    Race.entriesOf call cleaned files = Some es /\
    sumAmounts es = plainBytes files /\
    Forall (fun e => (0 <= Race.amount e)%Z) es.
Proof.
  induction 1 as [|f files Hf _ IH]; intros Hsizes.
  - exists []. repeat split. constructor.
  - inversion Hsizes as [|? ? Hsize Hrest]; subst.
    destruct (IH Hrest) as (es & Hes & Hsum & Hpos).
    cbn [Race.entriesOf plainBytes]. rewrite Hes.
    destruct (IsDir f) eqn:Hdir.
    + destruct (Hf eq_refl) as [o ->]. exists (Race.DirEntry 0 :: es).
      refine (conj eq_refl (conj _ _)).
      * cbn [sumAmounts Race.amount]. lia.
      * constructor; [cbn [Race.amount]; lia | exact Hpos].
    + exists (Race.FileEntry (Size f) :: es).
      refine (conj eq_refl (conj _ _)).
      * cbn [sumAmounts Race.amount]. lia.
      * constructor; [cbn [Race.amount]; auto | exact Hpos].
Qed.

(** X8. The data root is absolute and the confined root, which is not [/],
    resolves to itself; no directory of its listing can be resolved or
    listed under the confined root twice over followed by its name (the
    server directory holds no copy of its own path); the sizes listed are
    not negative and their sum fits 64 bits. Then, under every schedule of
    the goroutines, [DirectorySize] of ["/"] returns no error and a total
    between zero and the sum of the sizes of the entries of the confined
    root that are not directories, and some schedule returns that sum: what
    lies in the directories is never counted. *)
Theorem DirectorySize_of_root_at_most_top_level
    (host : Host) (fs : Filesystem) (k : nat) (files : list FileInfo) :
  strings.HasPrefix (Root fs) "/" = true ->
  Path fs <> "/" ->
  SafePath host fs "/" = (Path fs, None) ->
  ReadDir host (Path fs) = Ok files ->
  Forall (fun f => IsDir f = true -> notBelowItself host fs f) files ->
  Forall (fun f => IsDir f = false -> (0 <= Size f)%Z) files ->
  (plainBytes files <= int64.max)%Z ->
  (forall schedule r,
     Race.DirectorySizeUnder host fs schedule (S k) "/" = Some r ->
     exists total, r = (total, None) /\ (0 <= total <= plainBytes files)%Z) /\
  (exists schedule,
     Race.DirectorySizeUnder host fs schedule (S k) "/"
     = Some (plainBytes files, None)).
Proof.
  intros Habs Hroot Hsafe Hread Hfiles Hsizes Hmax.
  assert (Hcalls :
    Forall (fun f => IsDir f = true ->
              exists o, DirectorySize host fs (S k)
                          (filepath.Join [Path fs; Name f]) = Some (0%Z, o))
           files).
  { eapply Forall_impl; [exact Hfiles|].
    intros f Hf Hdir. apply DirectorySize_entry_fails; auto. }
  destruct (entriesOf_plain _ _ _ Hcalls Hsizes) as (es & Hes & Hsum & Hpos).
  split.
  - intros schedule r. unfold Race.DirectorySizeUnder.
    rewrite Hsafe, Hread, Hes.
    destruct (Race.run schedule (Race.start es)) as [st|] eqn:Hrun;
      [|discriminate].
    destruct (Race.returned st) as [total|] eqn:Hret; [|discriminate].
    intros [= <-]. exists total. split; [reflexivity|].
    rewrite <- Hsum in Hmax |- *.
    pose proof (run_bounded _ schedule Hmax _ _ (start_bounded _ Hpos) Hrun)
      as (Htodo & Htasks & [Hs1 Hs2] & _ & _).
    pose proof (sumAmounts_nonneg _ Htodo).
    pose proof (sumOwed_nonneg _ Htasks).
    unfold outstanding in Hs2. unfold Race.returned in Hret.
    assert (Race.size st = total) as <-.
    { destruct (Race.todo st); [|discriminate].
      destruct (Race.pending st); [discriminate|].
      destruct (forallb Race.isFinished (Race.tasks st)); [|discriminate].
      congruence. }
    lia.
  - exists (Race.inOrder 0 es).
    rewrite (DirectorySize_inOrder host fs (S k) "/" (Path fs) files es
               Hsafe Hread Hes).
    rewrite DirectorySize_S, Hsafe, Hread.
    change 0%Z with (int64.wrap 0) at 1.
    rewrite (rangeFiles_plain _ _ _ Hcalls). cbn [Z.add].
    rewrite wrap_id; [reflexivity|].
    pose proof (sumAmounts_nonneg _ Hpos).
    unfold int64.inRange, int64.min. lia.
Qed.

Lemma DirectorySize_of_root_at_most_top_level_witness :
  (forall schedule r,
     Race.DirectorySizeUnder (Disk.host Examples.mixed) Examples.fs1
       schedule 1 "/" = Some r ->
     exists total, r = (total, None) /\ (0 <= total <= 10)%Z) /\
  (exists schedule,
     Race.DirectorySizeUnder (Disk.host Examples.mixed) Examples.fs1
       schedule 1 "/" = Some (10%Z, None)).
Proof.
  apply (DirectorySize_of_root_at_most_top_level
           (Disk.host Examples.mixed) Examples.fs1 0
           [mkFileInfo "a" 4096 true; mkFileInfo "b.txt" 10 false]).
  - reflexivity.
  - vm_compute. discriminate.
  - vm_compute. reflexivity.
  - vm_compute. reflexivity.
  - constructor; [intros _|].
    + split; [reflexivity|]. split.
      * exists ENOENT. vm_compute. reflexivity.
      * exists ENOENT. vm_compute. reflexivity.
    + constructor; [intros Hdir; discriminate|constructor].
  - constructor; [intros Hdir; discriminate|].
    constructor; [intros _; simpl; lia|constructor].
  - vm_compute. discriminate.
Defined.

(** ** New paths behind a link *)

(** X15. The requested path does not exist, and its deepest existing
    ancestor, which as written begins with the confined root, resolves to
    the real path [t]. The request is then decided by the characters of
    [t]: it is refused with [InvalidPathResolution] when [t] does not begin
    with the string of the confined root, and the candidate is returned
    without an error when [t], not empty, does. So a new path behind a link
    to [/etc] is refused, while one behind a link to [/data/srv-10], next
    to the confined root [/data/srv-1], is accepted. *)
Theorem SafePath_new_path_decided_by_prefix
    (host : Host) (fs : Filesystem) (p : string) (n : nat) (t : string) :
  EvalSymlinks host (candidate fs p) = Fail ENOENT ->
  (1 <= n <= depth fs p)%nat ->
  (forall m, (n < m <= depth fs p)%nat ->
             EvalSymlinks host (ancestor fs p m) = Fail ENOENT) ->
  strings.HasPrefix (ancestor fs p n) (Path fs) = true ->
  EvalSymlinks host (ancestor fs p n) = Ok t ->
  (strings.HasPrefix t (Path fs) = false ->
   SafePath host fs p = ("", Some InvalidPathResolution)) /\
  (t <> "" -> strings.HasPrefix t (Path fs) = true ->
   SafePath host fs p = (candidate fs p, None)).
Proof.
  intros Hnew Hn Hdeeper Hlex Hres.
  rewrite (SafePath_not_exist _ _ _ Hnew).
  rewrite (walkUp_deepest host fs _ n t); try assumption; try lia.
  unfold checkPrefix. split.
  - intros Hout. rewrite Hout.
    destruct (t =? "") eqn:Ht; [|reflexivity].
    apply String.eqb_eq in Ht. subst t. cbn [negb]. rewrite Hout. reflexivity.
  - intros Hreal Hin. apply String.eqb_neq in Hreal.
    rewrite Hreal, Hin. reflexivity.
Qed.

Lemma SafePath_new_path_decided_by_prefix_witness :
  SafePath (Disk.host Links.linkOut) Examples.fs1 "etc/cron.d/job"
  = ("", Some InvalidPathResolution) /\
  SafePath (Disk.host Links.linkSibling) Examples.fs1 "peek/new.txt"
  = ("/data/srv-1/peek/new.txt", None).
Proof.
  split.
  - apply (proj1 (SafePath_new_path_decided_by_prefix
                    (Disk.host Links.linkOut) Examples.fs1
                    "etc/cron.d/job" 4 "/etc"
                    ltac:(vm_compute; reflexivity)
                    ltac:(vm_compute; lia)
                    ltac:(intros m Hm;
                          assert (m = 5)%nat as -> by (vm_compute in Hm; lia);
                          vm_compute; reflexivity)
                    ltac:(vm_compute; reflexivity)
                    ltac:(vm_compute; reflexivity))).
    reflexivity.
  - apply (proj2 (SafePath_new_path_decided_by_prefix
                    (Disk.host Links.linkSibling) Examples.fs1
                    "peek/new.txt" 4 "/data/srv-10"
                    ltac:(vm_compute; reflexivity)
                    ltac:(vm_compute; lia)
                    ltac:(intros m Hm; vm_compute in Hm; lia)
                    ltac:(vm_compute; reflexivity)
                    ltac:(vm_compute; reflexivity))).
    + discriminate.
    + reflexivity.
Defined.

(** * Properties of the configuration *)

(** ** [Expand] *)

Lemma trimRightByte_app_other (s : string) (x c : ascii) :
  Ascii.eqb x c = false ->
  config.trimRightByte (s ++ String x "") c = s ++ String x "".
Proof.
  intros Hx. induction s as [|y s IH].
  - change ("" ++ String x "") with (String x "").
    cbn [config.trimRightByte]. rewrite Hx. reflexivity.
  - change (String y s ++ String x "") with (String y (s ++ String x "")).
    cbn [config.trimRightByte]. rewrite IH.
    destruct s; reflexivity.
Qed.

Lemma trimRightByte_app_same (s : string) (c : ascii) :
  config.trimRightByte (s ++ String c "") c = config.trimRightByte s c.
Proof.
  induction s as [|y s IH].
  - change ("" ++ String c "") with (String c "").
    cbn [config.trimRightByte]. rewrite Ascii.eqb_refl. reflexivity.
  - change (String y s ++ String c "") with (String y (s ++ String c "")).
    cbn [config.trimRightByte]. rewrite IH. reflexivity.
Qed.

Lemma trimRightByte_not_at_end (s : string) (c : ascii) :
  endsWith (config.trimRightByte s c) c = false.
Proof.
  induction s as [|x s IH]; [reflexivity|].
  cbn [config.trimRightByte].
  destruct (config.trimRightByte s c) as [|y t] eqn:E.
  - destruct (Ascii.eqb x c) eqn:Hx; cbn [endsWith]; [reflexivity | exact Hx].
  - exact IH.
Qed.

Lemma Expand_no_error (pf : config.Platform) (v : string) :
  config.Expand pf v = (fst (config.Expand pf v), None).
Proof.
  unfold config.Expand.
  destruct (strings.HasPrefix (config.ExpandEnv pf v) config.filePrefix);
    [|reflexivity].
  destruct (config.ReadFile pf _); reflexivity.
Qed.

(** X16. [Expand] never returns an error: when the value refers to a file
    that cannot be read, the result is the empty string and no error. *)
Theorem Expand_unreadable_file
    (pf : config.Platform) (v : string) (e : error) :
  strings.HasPrefix (config.ExpandEnv pf v) "file://" = true ->
  config.ReadFile pf (config.sliceFrom 7 (config.ExpandEnv pf v)) = Fail e ->
  config.Expand pf v = ("", None) /\
  forall v', snd (config.Expand pf v') = None.
Proof.
  intros Hpre Hread. split.
  - unfold config.Expand, config.filePrefix. rewrite Hpre.
    change (String.length "file://") with 7%nat. rewrite Hread. reflexivity.
  - intros v'. rewrite Expand_no_error. reflexivity.
Qed.

Lemma Expand_unreadable_file_witness :
  config.Expand Setup.platform "file:///run/credentials/token" = ("", None) /\
  forall v', snd (config.Expand Setup.platform v') = None.
Proof.
  apply (Expand_unreadable_file Setup.platform
           "file:///run/credentials/token" ENOENT); reflexivity.
Defined.

(** X17. When the file that the value refers to ends with a carriage return
    and a line feed, [Expand] removes the line feed only: the carriage
    returns are trimmed first, while the content still ends with the line
    feed. *)
Theorem Expand_keeps_carriage_return
    (pf : config.Platform) (v body : string) :
  strings.HasPrefix (config.ExpandEnv pf v) "file://" = true ->
  config.ReadFile pf (config.sliceFrom 7 (config.ExpandEnv pf v))
    = Ok (body ++ String "013" (String "010" "")) ->
  config.Expand pf v = (body ++ String "013" "", None).
Proof.
  intros Hpre Hread. unfold config.Expand, config.filePrefix. rewrite Hpre.
  change (String.length "file://") with 7%nat. rewrite Hread.
  replace (body ++ String "013" (String "010" ""))
    with ((body ++ String "013" "") ++ String "010" "").
  - rewrite (trimRightByte_app_other _ "010" "013") by reflexivity.
    rewrite trimRightByte_app_same.
    rewrite (trimRightByte_app_other _ "013" "010") by reflexivity.
    reflexivity.
  - clear. induction body as [|x body IH]; [reflexivity|].
    change (String x body ++ String "013" "")
      with (String x (body ++ String "013" "")).
    change (String x (body ++ String "013" "") ++ String "010" "")
      with (String x ((body ++ String "013" "") ++ String "010" "")).
    rewrite IH. reflexivity.
Qed.

Lemma Expand_keeps_carriage_return_witness :
  config.Expand Setup.platform "file:///run/secret"
  = ("s3cret" ++ String "013" "", None).
Proof.
  apply (Expand_keeps_carriage_return Setup.platform "file:///run/secret" "s3cret");
    reflexivity.
Defined.

(** X18. The value that [Expand] reads from a file never ends with a line
    feed. *)
Theorem Expand_strips_line_feeds
    (pf : config.Platform) (v content : string) :
  strings.HasPrefix (config.ExpandEnv pf v) "file://" = true ->
  config.ReadFile pf (config.sliceFrom 7 (config.ExpandEnv pf v)) = Ok content ->
  endsWith (fst (config.Expand pf v)) "010" = false.
Proof.
  intros Hpre Hread. unfold config.Expand, config.filePrefix. rewrite Hpre.
  change (String.length "file://") with 7%nat. rewrite Hread.
  apply trimRightByte_not_at_end.
Qed.

Lemma Expand_strips_line_feeds_witness :
  endsWith (fst (config.Expand Setup.platform "file:///run/secret")) "010"
  = false.
Proof.
  apply (Expand_strips_line_feeds Setup.platform "file:///run/secret"
           ("s3cret" ++ String "013" (String "010" "")));
    reflexivity.
Defined.

(** ** [FromFile] and [Set] *)

(** [FromFile] when the file is read and parsed: the token installed is the
    chosen one, or the one of the file as it stands when the chosen one is
    empty. *)
Lemma FromFile_parsed (pf : config.Platform) (p b : string)
    (d c : config.Configuration) (g : config.Globals) :
  config.ReadFile pf p = Ok b ->
  config.Defaults pf = Some d ->
  config.Unmarshal pf b (config.withPath d p) = Some c ->
  exists id g',
    config.FromFile pf p g = (None, g') /\
    config.Get g' =
      Some (config.withToken c
              (config.Token.mk id
                 (if chosenToken pf c =? ""
                  then config.AuthenticationToken c
                  else chosenToken pf c))) /\
    (config._config g = None ->
     config.GetJwtAlgorithm g' =
       Some (config.NewHS256
               (if chosenToken pf c =? ""
                then config.AuthenticationToken c
                else chosenToken pf c))).
Proof.
  intros Hread Hdef Hparse.
  unfold config.FromFile, config.NewAtPath. rewrite Hread, Hdef, Hparse.
  unfold chosenToken, config.Set_, config.Get, config.GetJwtAlgorithm.
  destruct (config.Getenv pf "WINGS_TOKEN_ID" =? "") eqn:Eid;
    destruct (config.Getenv pf "WINGS_TOKEN" =? "") eqn:Etok;
    cbn -[config.Expand String.eqb]; rewrite ?Eid, ?Etok;
    cbn -[config.Expand String.eqb]; rewrite ?Eid, ?Etok;
    cbn -[config.Expand String.eqb];
    repeat match goal with
    | |- context [match config.Expand ?p ?a with _ => _ end] =>
        let H := fresh in
        pose proof (Expand_no_error p a) as H;
        destruct (config.Expand p a) as [? [?|]];
        [discriminate H | clear H]; cbn -[config.Expand String.eqb]
    end;
    match goal with
    | |- context [?t =? ""] => destruct (t =? "")
    end;
    cbn -[config.Expand String.eqb];
    eexists; eexists;
    (split; [reflexivity | split; [reflexivity | intros ->; reflexivity]]).
Qed.

(** X19. The configuration file is read and parsed. When the environment
    variable [WINGS_TOKEN] is set and expands to a value that is not empty,
    [FromFile] installs that value as the token, whatever token the file
    holds. *)
Theorem FromFile_environment_token (pf : config.Platform) (p b : string)
    (d c : config.Configuration) (g : config.Globals) :
  config.ReadFile pf p = Ok b ->
  config.Defaults pf = Some d ->
  config.Unmarshal pf b (config.withPath d p) = Some c ->
  config.Getenv pf "WINGS_TOKEN" <> "" ->
  fst (config.Expand pf (config.Getenv pf "WINGS_TOKEN")) <> "" ->
  exists g' c',
    config.FromFile pf p g = (None, g') /\
    config.Get g' = Some c' /\
    config.Token.Token (config.Token c')
    = fst (config.Expand pf (config.Getenv pf "WINGS_TOKEN")).
Proof.
  intros Hread Hdef Hparse Henv Hval.
  destruct (FromFile_parsed pf p b d c g Hread Hdef Hparse)
    as (id & g' & Hcall & Hget & _).
  exists g'. eexists. split; [exact Hcall|]. split; [exact Hget|].
  unfold chosenToken. apply String.eqb_neq in Henv. rewrite Henv.
  apply String.eqb_neq in Hval. rewrite Hval. reflexivity.
Qed.

(** X20. The configuration file is read and parsed and [WINGS_TOKEN] is not
    set. When the token of the file expands to the empty string, as it does
    for a reference to a file that cannot be read, [FromFile] reports no
    error and installs the token of the file as it is written, not
    expanded; at the first installation the JWT algorithm is made with that
    key. *)
Theorem FromFile_token_expands_to_nothing (pf : config.Platform)
    (p b : string) (d c : config.Configuration) (g : config.Globals) :
  config.ReadFile pf p = Ok b ->
  config.Defaults pf = Some d ->
  config.Unmarshal pf b (config.withPath d p) = Some c ->
  config.Getenv pf "WINGS_TOKEN" = "" ->
  fst (config.Expand pf (config.AuthenticationToken c)) = "" ->
  exists g' c',
    config.FromFile pf p g = (None, g') /\
    config.Get g' = Some c' /\
    config.Token.Token (config.Token c') = config.AuthenticationToken c /\
    (config._config g = None ->
     config.GetJwtAlgorithm g'
     = Some (config.NewHS256 (config.AuthenticationToken c))).
Proof.
  intros Hread Hdef Hparse Henv Hval.
  destruct (FromFile_parsed pf p b d c g Hread Hdef Hparse)
    as (id & g' & Hcall & Hget & Hjwt).
  assert (Hchosen : chosenToken pf c = "").
  { unfold chosenToken. rewrite Henv. exact Hval. }
  rewrite Hchosen in Hget, Hjwt. cbn [String.eqb] in Hget, Hjwt.
  exists g'. eexists. split; [exact Hcall|]. split; [exact Hget|].
  split; [reflexivity | exact Hjwt].
Qed.

(** X21. When [FromFile] returns an error, the package variables are as
    they were before the call: the configuration installed stays
    installed. *)
Theorem FromFile_error_keeps_globals (pf : config.Platform) (p : string)
    (g g' : config.Globals) (err : config.failure) :
  config.FromFile pf p g = (Some err, g') -> g' = g.
Proof.
  unfold config.FromFile, config.NewAtPath.
  destruct (config.ReadFile pf p) as [b|e]; [|intros [= _ <-]; reflexivity].
  destruct (config.Defaults pf) as [d|]; [|intros [= _ <-]; reflexivity].
  destruct (config.Unmarshal pf b _) as [c|]; [|intros [= _ <-]; reflexivity].
  cbv zeta.
  destruct (config.Expand pf _) as [id [e|]]; [intros [= _ <-]; reflexivity|].
  destruct (config.Expand pf _) as [tok [e|]]; [intros [= _ <-]; reflexivity|].
  discriminate.
Qed.

Lemma FromFile_environment_token_witness :
  exists g' c',
    config.FromFile Setup.withEnv "/etc/pelican/config.yml" config.initial
    = (None, g') /\
    config.Get g' = Some c' /\
    config.Token.Token (config.Token c')
    = fst (config.Expand Setup.withEnv (config.Getenv Setup.withEnv "WINGS_TOKEN")).
Proof.
  apply (FromFile_environment_token Setup.withEnv "/etc/pelican/config.yml"
           "token: ..." Setup.fromDefaults Setup.parsed config.initial);
    try reflexivity; vm_compute; discriminate.
Defined.

Lemma FromFile_token_expands_to_nothing_witness :
  exists g' c',
    config.FromFile Setup.platform "/etc/pelican/config.yml" config.initial
    = (None, g') /\
    config.Get g' = Some c' /\
    config.Token.Token (config.Token c') = "file:///run/credentials/token" /\
    (config._config config.initial = None ->
     config.GetJwtAlgorithm g'
     = Some (config.NewHS256 "file:///run/credentials/token")).
Proof.
  apply (FromFile_token_expands_to_nothing Setup.platform
           "/etc/pelican/config.yml" "token: ..." Setup.fromDefaults
           Setup.parsed config.initial); reflexivity.
Defined.

Lemma FromFile_error_keeps_globals_witness : Setup.installed = Setup.installed.
Proof.
  apply (FromFile_error_keeps_globals Setup.platform "/etc/pelican/other.yml"
           Setup.installed Setup.installed (config.OsError ENOENT)).
  reflexivity.
Defined.

(** ** [WriteToDisk] *)

(** X22. After [SetDebugViaFlag(true)] the configuration that [Get] returns
    has debugging on, and [WriteToDisk] of it writes the configuration with
    debugging off to its path. *)
Theorem WriteToDisk_debug_flag_not_persisted
    (pf : config.Platform) (g g1 : config.Globals)
    (c : config.Configuration) (b : string) :
  config.SetDebugViaFlag true g = Some g1 ->
  config.Get g1 = Some c ->
  config.path c <> "" ->
  config.Marshal pf (config.withDebug c false) = Some b ->
  config.Debug c = true /\
  snd (config.WriteToDisk pf c g1) = [(config.path c, b)].
Proof.
  unfold config.SetDebugViaFlag, config.Get. intros Hflag Hget Hpath Hyaml.
  destruct (config._config g) as [c0|]; [|discriminate].
  injection Hflag as <-. cbn [config._config] in Hget. injection Hget as <-.
  split; [reflexivity|].
  unfold config.WriteToDisk. cbn [config._debugViaFlag].
  apply String.eqb_neq in Hpath. rewrite Hpath, Hyaml.
  destruct (config.WriteFile pf _ b); reflexivity.
Qed.

Lemma WriteToDisk_debug_flag_not_persisted_witness :
  config.Debug (config.withDebug Setup.stored true) = true /\
  snd (config.WriteToDisk Setup.platform (config.withDebug Setup.stored true)
         Setup.debugging)
  = [("/etc/pelican/config.yml", "debug: false")].
Proof.
  apply (WriteToDisk_debug_flag_not_persisted Setup.platform Setup.installed
           Setup.debugging (config.withDebug Setup.stored true)
           "debug: false").
  - reflexivity.
  - reflexivity.
  - discriminate.
  - reflexivity.
Defined.

(** X23. [WriteToDisk] writes at most one file, the one at the path of the
    configuration it is given; it writes nothing when that path is empty
    or when it returns an error other than one of the operating system. *)
Theorem WriteToDisk_writes_only_to_path
    (pf : config.Platform) (c : config.Configuration) (g : config.Globals) :
  (forall name content,
     In (name, content) (snd (config.WriteToDisk pf c g)) ->
     name = config.path c /\ config.path c <> "" /\
     snd (config.WriteToDisk pf c g) = [(name, content)]) /\
  (forall err,
     fst (config.WriteToDisk pf c g) = Some err ->
     (forall e, err <> config.OsError e) ->
     snd (config.WriteToDisk pf c g) = []).
Proof.
  unfold config.WriteToDisk.
  destruct (config.path c =? "") eqn:Hpath.
  - split; [intros ? ? []|reflexivity].
  - apply String.eqb_neq in Hpath.
    destruct (config.Marshal pf _) as [b|]; [|split; [intros ? ? []|reflexivity]].
    destruct (config.WriteFile pf (config.path c) b) as [e|]; cbn [fst snd].
    + split.
      * intros name content [[= <- <-]|[]]. auto.
      * intros err [= <-] Hos. destruct (Hos e eq_refl).
    + split.
      * intros name content [[= <- <-]|[]]. auto.
      * intros err [=].
Qed.

(** ** [UseOpenat2] *)

(** X24. The answer of the first call of [UseOpenat2] is the answer of
    every later call: once a call has returned, a call made after [Set]
    has installed any other configuration, on any platform, returns the
    same answer without probing the kernel. *)
Theorem UseOpenat2_answers_once
    (pf pf' : config.Platform) (g g1 : config.Globals) (answer : bool)
    (did : list config.step) (c' : config.Configuration) :
  config.UseOpenat2 pf g = Some (answer, g1, did) ->
  config.UseOpenat2 pf' (config.Set_ c' g1)
  = Some (answer, config.Set_ c' g1, []).
Proof.
  unfold config.UseOpenat2. intros Hfirst.
  assert (Hset : config.openat2Set g1 = true /\ config.openat2 g1 = answer).
  { destruct (config.openat2Set g) eqn:Hs.
    - injection Hfirst as <- <- _. auto.
    - destruct (config.Get g) as [c|]; [|discriminate].
      destruct (_ =? "openat2"); [injection Hfirst as <- <- _; auto|].
      destruct (_ =? "openat"); [injection Hfirst as <- <- _; auto|].
      destruct (config.Openat2 pf); injection Hfirst as <- <- _; auto. }
  destruct Hset as [Hs Ha].
  unfold config.Set_. cbn [config.openat2Set config.openat2].
  rewrite Hs, Ha. reflexivity.
Qed.

Lemma UseOpenat2_answers_once_witness :
  config.UseOpenat2 Setup.withEnv
    (config.Set_ Setup.fromDefaults
       (config.mkGlobals (config._config Setup.installed)
          (config._jwtAlgo Setup.installed) false true true))
  = Some (true,
          config.Set_ Setup.fromDefaults
            (config.mkGlobals (config._config Setup.installed)
               (config._jwtAlgo Setup.installed) false true true),
          []).
Proof.
  apply (UseOpenat2_answers_once Setup.platform Setup.withEnv Setup.installed
           (config.mkGlobals (config._config Setup.installed)
              (config._jwtAlgo Setup.installed) false true true)
           true [config.Probed] Setup.fromDefaults).
  reflexivity.
Defined.

Lemma WriteToDisk_writes_only_to_path_witness :
  snd (config.WriteToDisk Setup.platform Setup.fromDefaults Setup.installed)
  = [].
Proof.
  apply (proj2 (WriteToDisk_writes_only_to_path
                  Setup.platform Setup.fromDefaults Setup.installed)
               config.NoPathDefined).
  - reflexivity.
  - discriminate.
Defined.

(** ** [GetStatesPath] *)

(** X25. For a clean absolute root directory, the path of the states file
    is the root directory followed by [/states.json] (and [/states.json]
    for the root [/]): the slash in front of the file name does not make
    the path start at the root of the disk. *)
Theorem GetStatesPath_of_clean_root (sc : config.SystemConfiguration) :
  strings.HasPrefix (config.RootDirectory sc) "/" = true ->
  filepath.Clean (config.RootDirectory sc) = config.RootDirectory sc ->
  config.GetStatesPath sc
  = (if config.RootDirectory sc =? "/" then "" else config.RootDirectory sc)
    ++ "/states.json".
Proof.
  intros Habs Hclean. unfold config.GetStatesPath.
  destruct (Clean_rooted_names _ Habs) as (rs & Hrs & HR).
  rewrite Hclean in HR. rewrite HR, (Join_absolute _ _ Hrs).
  change (filepath.cleanParts true (rev rs) (strings.Split "/states.json"))
    with (rev ("states.json" :: rev rs)).
  cbn [rev]. rewrite rev_involutive.
  destruct rs as [|c rs].
  - reflexivity.
  - rewrite absolute_snoc by discriminate.
    inversion Hrs as [|? ? Hc _]; subst.
    destruct (isName_inv _ Hc) as (Hne & _ & _).
    destruct c as [|x c]; [discriminate|].
    replace (absolute (String x c :: rs) =? "/") with false; [reflexivity|].
    symmetry. apply String.eqb_neq. unfold absolute.
    destruct rs; discriminate.
Qed.

Lemma GetStatesPath_of_clean_root_witness :
  config.GetStatesPath (config.mkSystemConfiguration "/var/lib/pelican" "/var/log/pelican"
       "" true "auto")
  = "/var/lib/pelican" ++ "/states.json".
Proof.
  apply (GetStatesPath_of_clean_root
           (config.mkSystemConfiguration "/var/lib/pelican" "/var/log/pelican"
       "" true "auto"));
    reflexivity.
Defined.


(** ** [ConfigureTimezone] *)

Example sanitize_rows :
  map config.sanitize
      ["Europe/Berlin" ++ String "010" ""; "Etc/GMT+5"; "America/New_York";
       "UTC 2024"; ""]
  = ["Europe/Berlin"; "Etc/GMT"; "America/New_York"; "UTC"; ""].
Proof. reflexivity. Qed.

Example FindSubmatch_rows :
  map config.FindSubmatch
      ["               Time zone: Europe/Berlin (CET, +0100)";
       "Time zone: n/a"; "Time zone: "; "Local time: Mon"]
  = [Some "Europe/Berlin"; Some "n/a"; None; None].
Proof. reflexivity. Qed.

Lemma sanitize_bytes_bounded (n : nat) :
  forall s, (String.length s <= n)%nat ->
            allBytes zoneOrHigh (config.sanitize s) = true.
Proof.
  induction n as [|n IH]; intros s Hlen.
  - destruct s; [reflexivity | simpl in Hlen; lia].
  - destruct s as [|a rest]; [reflexivity|].
    cbn [String.length] in Hlen.
    assert (Hrest : allBytes zoneOrHigh (config.sanitize rest) = true)
      by (apply IH; lia).
    cbn [config.sanitize].
    destruct (config.isZoneByte a) eqn:Ha.
    { cbn [allBytes]. unfold zoneOrHigh at 1. rewrite Ha. exact Hrest. }
    destruct rest as [|b rest']; [reflexivity|].
    cbn [String.length] in Hlen.
    destruct (Nat.eqb (nat_of_ascii a) 197 && Nat.eqb (nat_of_ascii b) 191)
      eqn:Hs.
    { apply andb_prop in Hs as [H1 H2].
      apply Nat.eqb_eq in H1, H2.
      cbn [allBytes]. unfold zoneOrHigh at 1 2. rewrite H1, H2.
      rewrite !orb_true_r. apply IH. lia. }
    destruct rest' as [|c rest'']; [exact Hrest|].
    cbn [String.length] in Hlen.
    destruct (Nat.eqb (nat_of_ascii a) 226 && Nat.eqb (nat_of_ascii b) 132
              && Nat.eqb (nat_of_ascii c) 170) eqn:Hk; [|exact Hrest].
    apply andb_prop in Hk as [Hk H3]. apply andb_prop in Hk as [H1 H2].
    apply Nat.eqb_eq in H1, H2, H3.
    cbn [allBytes]. unfold zoneOrHigh at 1 2 3. rewrite H1, H2, H3.
    rewrite !orb_true_r. apply IH. lia.
Qed.

(** What is left by the cleaning are letters, [_], [/] and bytes that are
    not ASCII. *)
Lemma sanitize_bytes (s : string) :
  allBytes zoneOrHigh (config.sanitize s) = true.
Proof. apply (sanitize_bytes_bounded (String.length s)). lia. Qed.

(** X26. A time zone set in the configuration comes before the environment
    variable [TZ], and both come before [/etc/timezone] and [timedatectl]:
    when one of the two is set, [ConfigureTimezone] stores that value,
    cleaned, whatever the file and the command would give, and returns an
    error exactly when [time.LoadLocation] refuses the cleaned value. *)
Theorem ConfigureTimezone_precedence
    (pf : config.Platform) (g : config.Globals) (c : config.Configuration)
    (chosen : string) :
  config._config g = Some c ->
  chosen = (if config.Timezone (config.System c) =? ""
            then config.Getenv pf "TZ"
            else config.Timezone (config.System c)) ->
  chosen <> "" ->
  config.ConfigureTimezone pf g =
    Some (if config.LoadLocation pf (config.sanitize chosen)
          then None
          else Some (config.InvalidTimezone (config.sanitize chosen)),
          config.store g (config.withTimezone c (config.sanitize chosen)),
          []).
Proof.
  intros Hc -> Hne. unfold config.ConfigureTimezone. rewrite Hc.
  destruct (config.Timezone (config.System c) =? "") eqn:Hset.
  - apply String.eqb_neq in Hne. rewrite Hne. cbn [andb negb].
    cbn [config.withTimezone config.System config.Timezone].
    rewrite Hne. unfold config.checkTimezone.
    cbn [config.withTimezone config.System config.Timezone
         config.Token config.path config.Debug config.AuthenticationTokenId
         config.AuthenticationToken config.RootDirectory config.LogDirectory
         config.EnableLogRotate config.OpenatMode].
    destruct (config.LoadLocation pf _); reflexivity.
  - cbn [andb]. rewrite Hset. unfold config.checkTimezone.
    cbn [config.withTimezone config.System config.Timezone].
    destruct (config.LoadLocation pf _); reflexivity.
Qed.

Lemma ConfigureTimezone_precedence_witness :
  config.ConfigureTimezone Setup.platform
    (config.store Setup.installed (config.withTimezone Setup.stored "Etc/GMT+5"))
  = Some (if config.LoadLocation Setup.platform (config.sanitize "Etc/GMT+5")
          then None
          else Some (config.InvalidTimezone (config.sanitize "Etc/GMT+5")),
          config.store
            (config.store Setup.installed
               (config.withTimezone Setup.stored "Etc/GMT+5"))
            (config.withTimezone
               (config.withTimezone Setup.stored "Etc/GMT+5")
               (config.sanitize "Etc/GMT+5")),
          []).
Proof.
  apply (ConfigureTimezone_precedence Setup.platform
           (config.store Setup.installed
              (config.withTimezone Setup.stored "Etc/GMT+5"))
           (config.withTimezone Setup.stored "Etc/GMT+5") "Etc/GMT+5").
  - reflexivity.
  - reflexivity.
  - discriminate.
Defined.

(** X27. Whatever the outcome of [ConfigureTimezone], the time zone it
    leaves in the configuration holds no ASCII byte other than letters,
    [_] and [/]: digits, signs, blanks and line breaks are removed, so
    that [Etc/GMT+5] is stored as [Etc/GMT]. *)
Theorem ConfigureTimezone_stored_bytes
    (pf : config.Platform) (g g' : config.Globals)
    (err : option config.failure) (log : list config.warning)
    (c' : config.Configuration) :
  config.ConfigureTimezone pf g = Some (err, g', log) ->
  config._config g' = Some c' ->
  allBytes zoneOrHigh (config.Timezone (config.System c')) = true.
Proof.
  unfold config.ConfigureTimezone. intros Hcall Hc'.
  destruct (config._config g) as [c|]; [|discriminate].
  assert (Hcheck : forall c0 l,
            Some (config.checkTimezone pf g c0 l) = Some (err, g', log) ->
            allBytes zoneOrHigh (config.Timezone (config.System c')) = true).
  { intros c0 l H. unfold config.checkTimezone in H.
    cbn [config.withTimezone config.System config.Timezone] in H.
    destruct (config.LoadLocation pf _); injection H as _ <- _;
      cbn [config.store config._config] in Hc'; injection Hc' as <-;
      apply sanitize_bytes. }
  cbv zeta in Hcall.
  destruct (config.Timezone (config.System _) =? "") eqn:Hempty in Hcall;
    [|exact (Hcheck _ _ Hcall)].
  destruct (config.ReadFile pf "/etc/timezone") as [b|e];
    [exact (Hcheck _ _ Hcall)|].
  destruct (negb (os.IsNotExist (Some e))).
  - injection Hcall as _ <- _. cbn [config.store config._config] in Hc'.
    injection Hc' as <-. apply String.eqb_eq in Hempty. rewrite Hempty.
    reflexivity.
  - destruct (config.Timedatectl pf) as [out|].
    + destruct (config.FindSubmatch out) as [word|].
      * destruct (word =? ""); [|exact (Hcheck _ _ Hcall)].
        injection Hcall as _ <- _. cbn [config.store config._config] in Hc'.
        injection Hc' as <-. reflexivity.
      * injection Hcall as _ <- _. cbn [config.store config._config] in Hc'.
        injection Hc' as <-. reflexivity.
    + injection Hcall as _ <- _. cbn [config.store config._config] in Hc'.
      injection Hc' as <-. reflexivity.
Qed.

Lemma ConfigureTimezone_stored_bytes_witness :
  allBytes zoneOrHigh "Etc/GMT" = true.
Proof.
  apply (ConfigureTimezone_stored_bytes Setup.platform
           (config.store Setup.installed
              (config.withTimezone Setup.stored "Etc/GMT+5"))
           (config.store Setup.installed
              (config.withTimezone Setup.stored "Etc/GMT"))
           None []
           (config.withTimezone Setup.stored "Etc/GMT")).
  - reflexivity.
  - reflexivity.
Defined.

(** ** [EnableLogRotation] *)

(** X28. [EnableLogRotation] changes the disk only when log rotation is
    enabled, [/etc/logrotate.d] is a directory and [/etc/logrotate.d/wings]
    does not exist; all it does then is to create that file and to write
    the rules for the log directory to it. A file that exists is left as it
    is. *)
Theorem EnableLogRotation_only_creates_missing_file
    (pf : config.Platform) (g : config.Globals)
    (err : option config.failure) (changes : list config.change) :
  config.EnableLogRotation pf g = Some (err, changes) ->
  changes <> [] ->
  exists c,
    config._config g = Some c /\
    config.EnableLogRotate (config.System c) = true /\
    config.Stat pf "/etc/logrotate.d" = Ok true /\
    config.Stat pf "/etc/logrotate.d/wings" = Fail ENOENT /\
    Forall (fun ch =>
              ch = config.Created "/etc/logrotate.d/wings" \/
              ch = config.Written "/etc/logrotate.d/wings"
                     (config.LogDirectory (config.System c)
                      ++ config.logrotateRules))
           changes.
Proof.
  unfold config.EnableLogRotation. intros Hcall Hchanges.
  destruct (config._config g) as [c|]; [|discriminate].
  exists c. split; [reflexivity|].
  destruct (config.EnableLogRotate (config.System c));
    [|injection Hcall as _ <-; congruence].
  cbn [negb] in Hcall. split; [reflexivity|].
  destruct (config.Stat pf "/etc/logrotate.d") as [[|]|e] eqn:Hdir.
  - cbn [negb] in Hcall. split; [reflexivity|].
    destruct (config.Stat pf "/etc/logrotate.d/wings") as [?|e] eqn:Hfile;
      [injection Hcall as _ <-; congruence|].
    destruct e; cbn [os.IsNotExist negb] in Hcall;
      try (injection Hcall as _ <-; congruence).
    split; [reflexivity|].
    destruct (config.Create pf _); [injection Hcall as _ <-; congruence|].
    destruct (config.Execute pf _); injection Hcall as _ <-.
    + constructor; [left; reflexivity | constructor].
    + constructor; [left; reflexivity|].
      constructor; [right; reflexivity | constructor].
  - injection Hcall as _ <-. congruence.
  - destruct (negb (os.IsNotExist (Some e))); injection Hcall as _ <-; congruence.
Qed.

Lemma EnableLogRotation_only_creates_missing_file_witness :
  exists c,
    config._config Setup.installed = Some c /\
    config.EnableLogRotate (config.System c) = true /\
    config.Stat Setup.platform "/etc/logrotate.d" = Ok true /\
    config.Stat Setup.platform "/etc/logrotate.d/wings" = Fail ENOENT /\
    Forall (fun ch =>
              ch = config.Created "/etc/logrotate.d/wings" \/
              ch = config.Written "/etc/logrotate.d/wings"
                     (config.LogDirectory (config.System c)
                      ++ config.logrotateRules))
           [config.Created "/etc/logrotate.d/wings";
            config.Written "/etc/logrotate.d/wings"
              ("/var/log/pelican" ++ config.logrotateRules)].
Proof.
  apply (EnableLogRotation_only_creates_missing_file
           Setup.platform Setup.installed None).
  - reflexivity.
  - discriminate.
Defined.

